(** * WasteBin monitoring system: a shallow embedding of [main.py]

    The MicroPython program drives an HC-SR04 style ultrasonic sensor, three
    indicator LEDs and an e-mail alert.  Every method of [WasteBinMonitor]
    is rendered as a Rocq function over an explicit copy of [self]; whatever
    the program reads from the outside (echo pin, microsecond ticks, wall
    clock, HTTP transport, Wi-Fi status) is an explicit input.

    Numbers.  [time.time()] yields whole seconds on the target, modelled as
    [Z].  A distance is the quotient [(pulse_duration / 2) / 29.1]; it is
    modelled as an exact rational [Q].  The thresholds it is compared with
    are small integers, and rounding a quotient of that size to a float
    changes neither its sign nor its position relative to them. *)

From Stdlib Require Import ZArith QArith List Sorted String Bool Lia.
Import ListNotations.
Open Scope Z_scope.

(** ** Configuration (the [CONFIG] dictionary) *)

Record config := mkConfig {
  EMPTY : Z;        (* CONFIG['DISTANCE_THRESHOLDS']['EMPTY'] *)
  HALF_FULL : Z;    (* CONFIG['DISTANCE_THRESHOLDS']['HALF_FULL'] *)
  EMAIL_DELAY : Z;  (* CONFIG['EMAIL_DELAY'] *)
  ADDRESS : string  (* CONFIG['ADDRESS'] *)
}.

Definition CONFIG : config :=
  {| EMPTY := 30; HALF_FULL := 10; EMAIL_DELAY := 300;
     ADDRESS := "Dustbin Location" |}.

(** ** Python values and effects *)

(** An instance of [Exception], the class the two handlers catch. *)
Inductive exn := Exception (msg : string).

Inductive result (A : Type) :=
| Returns (a : A)
| Raises (e : exn).
Arguments Returns {A} a.
Arguments Raises {A} e.

(** What a run leaves behind on the console, the network and the clock. *)
Inductive event :=
| Print (line : string)
| PrintDistance (distance : Q)  (* f"Measured Distance: {distance:.2f} cm" *)
| PrintError (e : exn)          (* f"Error: {e}" *)
| Alert (subject message address : string) (* send_email_alert entered *)
| Sleep (seconds : Z).          (* time.sleep(seconds) in run *)

(** Python's [x > y] on numbers. *)
Definition Qgtb (x y : Q) : bool :=
  match Qcompare x y with Gt => true | _ => false end.

(** ** The monitor object

    The three LED fields hold the level last written to the output pins;
    [Pin(n, Pin.OUT)] leaves them low. *)
Record WasteBinMonitor := mkMonitor {
  green_led : bool;
  yellow_led : bool;
  red_led : bool;
  last_email_time : Z;
  is_currently_full : bool;
  first_full_detection : bool
}.

(** The object [WasteBinMonitor()] as [__init__] leaves it. *)
Definition __init__ : WasteBinMonitor :=
  {| green_led := false; yellow_led := false; red_led := false;
     last_email_time := 0;
     is_currently_full := false;
     first_full_detection := true |}.

Definition set_leds (g y r : bool) (self : WasteBinMonitor) :=
  {| green_led := g; yellow_led := y; red_led := r;
     last_email_time := last_email_time self;
     is_currently_full := is_currently_full self;
     first_full_detection := first_full_detection self |}.

Definition set_last_email_time (t : Z) (self : WasteBinMonitor) :=
  {| green_led := green_led self; yellow_led := yellow_led self;
     red_led := red_led self;
     last_email_time := t;
     is_currently_full := is_currently_full self;
     first_full_detection := first_full_detection self |}.

Definition set_is_currently_full (b : bool) (self : WasteBinMonitor) :=
  {| green_led := green_led self; yellow_led := yellow_led self;
     red_led := red_led self;
     last_email_time := last_email_time self;
     is_currently_full := b;
     first_full_detection := first_full_detection self |}.

Definition set_first_full_detection (b : bool) (self : WasteBinMonitor) :=
  {| green_led := green_led self; yellow_led := yellow_led self;
     red_led := red_led self;
     last_email_time := last_email_time self;
     is_currently_full := is_currently_full self;
     first_full_detection := b |}.

(** ** Notification *)

(** How the outside answers one call of [send_email_alert]. *)
Inductive transport :=
| Responds (status_code : Z)  (* urequests.post returned a response *)
| PostRaises (e : exn)        (* raised inside the try block *)
| BuildRaises (e : exn).      (* raised before the try block is entered,
                                 while the payload is built or printed *)

(** What one call of [update_bin_status] reads from the outside. *)
Record world := mkWorld {
  time_at_decision : Z;   (* time.time() inside should_send_email *)
  post_outcome : transport;
  time_after_send : Z     (* time.time() after a successful send *)
}.

(** [send_email_alert]: the try block turns every failure of the post
    into [False]; only status 201 is success. *)
Definition send_email_alert (net : transport) : result bool * list event :=
  match net with
  | BuildRaises e => (Raises e, [])
  | Responds status_code =>
      (Returns (status_code =? 201), [Print "Payload:"; Print "Email Response:"])
  | PostRaises e =>
      (Returns false, [Print "Payload:"; Print "Error sending email:"])
  end.

(** [should_send_email] *)
Definition should_send_email (cfg : config) (current_time : Z)
    (self : WasteBinMonitor) : bool :=
  if first_full_detection self then true
  else if current_time - last_email_time self >=? EMAIL_DELAY cfg then true
  else false.

(** ** Classification, indicator and throttle: [update_bin_status] *)

Record step := mkStep {
  ret : result unit;
  after : WasteBinMonitor;
  out : list event
}.

Definition update_bin_status (cfg : config) (w : world)
    (self : WasteBinMonitor) (distance : Q) : step :=
  if Qgtb distance (inject_Z (EMPTY cfg)) then
    let self := set_leds true false false self in
    let self :=
      if is_currently_full self
      then set_first_full_detection true (set_is_currently_full false self)
      else self in
    mkStep (Returns tt) self [Print "Bin is empty."]
  else if Qgtb distance (inject_Z (HALF_FULL cfg)) then
    let self := set_leds false true false self in
    let self :=
      if is_currently_full self
      then set_first_full_detection true (set_is_currently_full false self)
      else self in
    mkStep (Returns tt) self [Print "Bin is partially full."]
  else
    let self := set_leds false false true self in
    let self :=
      if negb (is_currently_full self)
      then set_is_currently_full true self
      else self in
    if should_send_email cfg (time_at_decision w) self then
      let alert :=
        Alert "Waste Bin Full Alert"
              "The bin is full and needs to be emptied." (ADDRESS cfg) in
      match send_email_alert (post_outcome w) with
      | (Raises e, o) => mkStep (Raises e) self (Print "Bin is full." :: alert :: o)
      | (Returns true, o) =>
          let self := set_last_email_time (time_after_send w) self in
          let self := set_first_full_detection false self in
          mkStep (Returns tt) self (Print "Bin is full." :: alert :: o)
      | (Returns false, o) =>
          mkStep (Returns tt) self (Print "Bin is full." :: alert :: o)
      end
    else mkStep (Returns tt) self [Print "Bin is full."].

(** ** Distance measurement *)

(** The microsecond clock of the MicroPython runtime ([time.ticks_add],
    [time.ticks_diff]; library code the program imports), after its
    documented behaviour: tick values live in [0, TICKS_PERIOD) and wrap
    around; [ticks_diff] is the signed, wraparound-safe difference. *)
Definition TICKS_PERIOD : Z := 2 ^ 30.

Definition ticks_add (ticks delta : Z) : Z := (ticks + delta) mod TICKS_PERIOD.

Definition ticks_diff (ticks1 ticks2 : Z) : Z :=
  (ticks1 - ticks2 + TICKS_PERIOD / 2) mod TICKS_PERIOD - TICKS_PERIOD / 2.

(** The sensor is described by what the program will read from it:
    [echo] lists the successive results of [self.echo.value()] ([true] for
    1) and [ticks] the successive results of [time.ticks_us()].  A script
    that ends before the method does yields [None]. *)

(** How one of the two [while] loops is left. *)
Inductive wait :=
| Expired                                        (* return 100 *)
| Edge (stamp : Z) (echo : list bool) (ticks : list Z).
                                                 (* loop condition false *)

(** [while self.echo.value() == 0: pulse_start = ticks_us(); ...] *)
Fixpoint wait_echo_high (timeout pulse_start : Z)
    (echo : list bool) (ticks : list Z) : option wait :=
  match echo with
  | [] => None
  | true :: echo' => Some (Edge pulse_start echo' ticks)
  | false :: echo' =>
      match ticks with
      | now1 :: now2 :: ticks' =>
          if ticks_diff now2 timeout >? 0 then Some Expired
          else wait_echo_high timeout now1 echo' ticks'
      | _ => None
      end
  end.

(** [while self.echo.value() == 1: pulse_end = ticks_us(); ...] *)
Fixpoint wait_echo_low (timeout pulse_end : Z)
    (echo : list bool) (ticks : list Z) : option wait :=
  match echo with
  | [] => None
  | false :: echo' => Some (Edge pulse_end echo' ticks)
  | true :: echo' =>
      match ticks with
      | now1 :: now2 :: ticks' =>
          if ticks_diff now2 timeout >? 0 then Some Expired
          else wait_echo_low timeout now1 echo' ticks'
      | _ => None
      end
  end.

(** [distance = (pulse_duration / 2) / 29.1] *)
Definition distance_of_pulse (pulse_duration : Z) : Q :=
  ((inject_Z pulse_duration / 2) / (291 # 10))%Q.

(** [measure_distance].  The trigger pulse (off, 2 us, on, 10 us, off) is
    written to an output nobody reads back and is left out. *)
Definition measure_distance (echo : list bool) (ticks : list Z) : option Q :=
  match ticks with
  | [] => None
  | now0 :: ticks =>
      let pulse_start := now0 in
      let pulse_end := now0 in
      let timeout := ticks_add pulse_start 30000 in
      match wait_echo_high timeout pulse_start echo ticks with
      | None => None
      | Some Expired => Some 100%Q
      | Some (Edge pulse_start echo ticks) =>
          match wait_echo_low timeout pulse_end echo ticks with
          | None => None
          | Some Expired => Some 100%Q
          | Some (Edge pulse_end _ _) =>
              let pulse_duration := ticks_diff pulse_end pulse_start in
              Some (distance_of_pulse pulse_duration)
          end
      end
  end.

(** ** Start-up and the monitoring loop *)

(** The polling loop of [connect_wifi]: [polls] lists the results of
    [sta_if.isconnected()], [clock] those of [time.time()]. *)
Fixpoint wifi_wait (start_time : Z) (polls : list bool) (clock : list Z)
    : option bool :=
  match polls with
  | [] => None
  | true :: _ => Some true
  | false :: polls' =>
      match clock with
      | [] => None
      | now :: clock' =>
          if now - start_time >? 10 then Some false
          else wifi_wait start_time polls' clock'
      end
  end.

(** [connect_wifi] *)
Definition connect_wifi (polls : list bool) (clock : list Z) : option bool :=
  match clock with
  | [] => None
  | start_time :: clock' => wifi_wait start_time polls clock'
  end.

(** What one pass through the loop body reads from the outside: either the
    call of [measure_distance] raises, or it runs against a sensor script;
    then the inputs of [update_bin_status]. *)
Record cycle := mkCycle {
  sensing : result (list bool * list Z);
  outside : world
}.

(** The body of the [try] block in [run]. *)
Definition try_body (cfg : config) (c : cycle) (self : WasteBinMonitor)
    : option step :=
  match sensing c with
  | Raises e => Some (mkStep (Raises e) self [])
  | Returns (echo, ticks) =>
      match measure_distance echo ticks with
      | None => None
      | Some distance =>
          let s := update_bin_status cfg (outside c) self distance in
          match ret s with
          | Raises e =>
              Some (mkStep (Raises e) (after s) (PrintDistance distance :: out s))
          | Returns _ =>
              Some (mkStep (Returns tt) (after s)
                      (PrintDistance distance :: out s ++ [Sleep 10]))
          end
      end
  end.

(** The [except Exception as e] clause. *)
Definition handler (r : result unit) : list event :=
  match r with
  | Returns _ => []
  | Raises e => [PrintError e; Sleep 5]
  end.

(** [while True: try: ... except ...], unfolded once per supplied cycle. *)
Fixpoint monitor_loop (cfg : config) (cycles : list cycle)
    (self : WasteBinMonitor) : option (WasteBinMonitor * list event) :=
  match cycles with
  | [] => Some (self, [])
  | c :: cycles' =>
      match try_body cfg c self with
      | None => None
      | Some s =>
          match monitor_loop cfg cycles' (after s) with
          | None => None
          | Some (self', o) => Some (self', out s ++ handler (ret s) ++ o)
          end
      end
  end.

(** Where control is once the supplied inputs are used up: [run] has
    returned, or it is still inside [while True]. *)
Inductive control := Returned | Looping.

(** [run] *)
Definition run (cfg : config) (polls : list bool) (clock : list Z)
    (cycles : list cycle) (self : WasteBinMonitor)
    : option (control * WasteBinMonitor * list event) :=
  match connect_wifi polls clock with
  | None => None
  | Some false => Some (Returned, self, [])
  | Some true =>
      match monitor_loop cfg cycles self with
      | None => None
      | Some (self', o) =>
          Some (Looping, self', Print "Monitoring started..." :: o)
      end
  end.

(** ** Reading the model's outputs *)

Inductive fill_state := EMPTY_BIN | PARTIAL_BIN | FULL_BIN.


Definition fill_rank (l : fill_state) : Z :=
  match l with EMPTY_BIN => 0 | PARTIAL_BIN => 1 | FULL_BIN => 2 end.

(** The fill state the three LEDs display, when they display one. *)
Definition indicated (self : WasteBinMonitor) : option fill_state :=
  match green_led self, yellow_led self, red_led self with
  | true, false, false => Some EMPTY_BIN
  | false, true, false => Some PARTIAL_BIN
  | false, false, true => Some FULL_BIN
  | _, _, _ => None
  end.

Definition level_shown (cfg : config) (w : world) (self : WasteBinMonitor)
    (distance : Q) : option fill_state :=
  indicated (after (update_bin_status cfg w self distance)).

Definition lit (self : WasteBinMonitor) : nat :=
  List.length (filter id [green_led self; yellow_led self; red_led self]).

(** The reading takes the [else] branch / one of the first two branches. *)
Definition reads_full (cfg : config) (d : Q) : Prop :=
  (d <= inject_Z (EMPTY cfg))%Q /\ (d <= inject_Z (HALF_FULL cfg))%Q.

Definition reads_not_full (cfg : config) (d : Q) : Prop :=
  (inject_Z (EMPTY cfg) < d)%Q \/ (inject_Z (HALF_FULL cfg) < d)%Q.

(** The [Alert] event [update_bin_status] emits when it calls
    [send_email_alert]. *)
Definition alert_of (cfg : config) : event :=
  Alert "Waste Bin Full Alert" "The bin is full and needs to be emptied."
        (ADDRESS cfg).

(** The common shape of the two loops of [measure_distance]: wait while
    the echo pin reads [level].  Used to reason about both at once. *)
Fixpoint wait_while (level : bool) (timeout stamp : Z)
    (echo : list bool) (ticks : list Z) : option wait :=
  match echo with
  | [] => None
  | b :: echo' =>
      if Bool.eqb b level then
        match ticks with
        | now1 :: now2 :: ticks' =>
            if ticks_diff now2 timeout >? 0 then Some Expired
            else wait_while level timeout now1 echo' ticks'
        | _ => None
        end
      else Some (Edge stamp echo' ticks)
  end.

(** The echo pin reads [level] at every sample of a wait until a deadline
    check, the one after sample [k], finds the clock past [timeout]: the
    checks are the second tick reading of each pass, at the odd positions
    of [ticks]. *)
Definition held_past_deadline (level : bool) (timeout : Z)
    (echo : list bool) (ticks : list Z) : Prop :=
  exists k : nat,
    (forall i, (i <= k)%nat -> nth_error echo i = Some level) /\
    (forall i, (i < k)%nat ->
       exists now, nth_error ticks (2 * i + 1) = Some now /\
                   ticks_diff now timeout <= 0) /\
    (exists now, nth_error ticks (2 * k + 1) = Some now /\
                 ticks_diff now timeout > 0).

(** What [time.ticks_us()] shows of a microsecond count that never
    wraps. *)
Definition wrap (t : Z) : Z := t mod TICKS_PERIOD.

(** The sensor script of a cycle is long enough for [measure_distance]. *)
Definition sensor_ready (c : cycle) : Prop :=
  match sensing c with
  | Raises _ => True
  | Returns (echo, ticks) => measure_distance echo ticks <> None
  end.

(** A start-up in which the second poll finds the link up, and three
    cycles: the measurement raises; a pulse of 490 us (8.4 cm) is read and
    building the alert raises; the same pulse is read and the alert is
    answered 201. *)
Definition demo_polls : list bool := [false; true].
Definition demo_clock : list Z := [0; 1].
Definition demo_echo : list bool := [false; true; true; false].
Definition demo_ticks : list Z := [1000; 1010; 1015; 1500; 1510].
Definition demo_cycles : list cycle :=
  [ mkCycle (Raises (Exception "sensor")) (mkWorld 2 (Responds 201) 2);
    mkCycle (Returns (demo_echo, demo_ticks))
            (mkWorld 7 (BuildRaises (Exception "memory")) 7);
    mkCycle (Returns (demo_echo, demo_ticks)) (mkWorld 12 (Responds 201) 13) ].

(** The state in which the [else] branch calls [should_send_email]. *)
Definition marked_full (self : WasteBinMonitor) : WasteBinMonitor :=
  set_is_currently_full true (set_leds false false true self).

(** Successive calls of [update_bin_status], each with its own inputs. *)
Definition feed (cfg : config) (inputs : list (world * Q))
    (self : WasteBinMonitor) : WasteBinMonitor :=
  fold_left (fun m wd => after (update_bin_status cfg (fst wd) m (snd wd)))
            inputs self.

(** The pauses of a run, in order. *)
Fixpoint pauses (o : list event) : list Z :=
  match o with
  | [] => []
  | Sleep n :: o' => n :: pauses o'
  | _ :: o' => pauses o'
  end.

(** The console and network events of successive calls of
    [update_bin_status], in order. *)
Fixpoint feed_out (cfg : config) (inputs : list (world * Q))
    (self : WasteBinMonitor) : list event :=
  match inputs with
  | [] => []
  | wd :: inputs' =>
      let s := update_bin_status cfg (fst wd) self (snd wd) in
      out s ++ feed_out cfg inputs' (after s)
  end.

Definition is_alert (ev : event) : bool :=
  match ev with Alert _ _ _ => true | _ => false end.

(** How many times [send_email_alert] was entered. *)
Definition count_alerts (o : list event) : nat :=
  List.length (filter is_alert o).

(** A clock reading lies in the half period that starts at [T0]. *)
Definition in_window (T0 t : Z) : Prop := T0 <= t /\ t - T0 < 2 ^ 29.

(** What holds of the monitor between calls: at most one LED is lit, the
    red LED mirrors the full flag, and the first-detection flag is cleared
    only while the full flag is set. *)
Definition coherent (m : WasteBinMonitor) : Prop :=
  (lit m <= 1)%nat /\
  red_led m = is_currently_full m /\
  (first_full_detection m = false -> is_currently_full m = true).

(** * Properties *)

(** ** Comparison *)

Lemma Qgtb_true (x y : Q) : Qgtb x y = true <-> (y < x)%Q.
Proof.
  unfold Qgtb. rewrite (Qgt_alt x y).
  destruct (x ?= y)%Q; split; congruence.
Qed.

Lemma Qgtb_false (x y : Q) : Qgtb x y = false <-> (x <= y)%Q.
Proof.
  unfold Qgtb. rewrite (Qle_alt x y).
  destruct (x ?= y)%Q; split; congruence.
Qed.

Lemma reads_full_or_not (cfg : config) (d : Q) :
  reads_full cfg d \/ reads_not_full cfg d.
Proof.
  unfold reads_full, reads_not_full.
  destruct (Qlt_le_dec (inject_Z (EMPTY cfg)) d); auto.
  destruct (Qlt_le_dec (inject_Z (HALF_FULL cfg)) d); auto.
Qed.

(** ** The three branches of [update_bin_status] *)

Section Branches.

Variables (cfg : config) (w : world) (self : WasteBinMonitor) (d : Q).

Let m := after (update_bin_status cfg w self d).

Lemma update_empty :
  (inject_Z (EMPTY cfg) < d)%Q ->
  update_bin_status cfg w self d =
  mkStep (Returns tt)
    (let self := set_leds true false false self in
     if is_currently_full self
     then set_first_full_detection true (set_is_currently_full false self)
     else self)
    [Print "Bin is empty."].
Proof.
  intros H. apply Qgtb_true in H. unfold update_bin_status.
  rewrite H. reflexivity.
Qed.

Lemma update_partial :
  (d <= inject_Z (EMPTY cfg))%Q -> (inject_Z (HALF_FULL cfg) < d)%Q ->
  update_bin_status cfg w self d =
  mkStep (Returns tt)
    (let self := set_leds false true false self in
     if is_currently_full self
     then set_first_full_detection true (set_is_currently_full false self)
     else self)
    [Print "Bin is partially full."].
Proof.
  intros H1 H2. apply Qgtb_false in H1. apply Qgtb_true in H2.
  unfold update_bin_status. rewrite H1, H2. reflexivity.
Qed.

Lemma update_full :
  reads_full cfg d ->
  update_bin_status cfg w self d =
  if should_send_email cfg (time_at_decision w) self then
    match send_email_alert (post_outcome w) with
    | (Raises e, o) =>
        mkStep (Raises e) (marked_full self)
               (Print "Bin is full." :: alert_of cfg :: o)
    | (Returns true, o) =>
        mkStep (Returns tt)
               (set_first_full_detection false
                  (set_last_email_time (time_after_send w) (marked_full self)))
               (Print "Bin is full." :: alert_of cfg :: o)
    | (Returns false, o) =>
        mkStep (Returns tt) (marked_full self)
               (Print "Bin is full." :: alert_of cfg :: o)
    end
  else mkStep (Returns tt) (marked_full self) [Print "Bin is full."].
Proof.
  intros [H1 H2]. apply Qgtb_false in H1. apply Qgtb_false in H2.
  unfold update_bin_status. rewrite H1, H2.
  destruct self as [g y r t full first].
  unfold marked_full, should_send_email.
  destruct full, first; simpl; reflexivity.
Qed.

(** The LEDs after each branch. *)
Lemma update_empty_leds :
  (inject_Z (EMPTY cfg) < d)%Q ->
  green_led m = true /\ yellow_led m = false /\ red_led m = false.
Proof.
  intros H. unfold m. rewrite (update_empty H). simpl.
  destruct (is_currently_full self); repeat split.
Qed.

Lemma update_partial_leds :
  (d <= inject_Z (EMPTY cfg))%Q -> (inject_Z (HALF_FULL cfg) < d)%Q ->
  green_led m = false /\ yellow_led m = true /\ red_led m = false.
Proof.
  intros H1 H2. unfold m. rewrite (update_partial H1 H2). simpl.
  destruct (is_currently_full self); repeat split.
Qed.

Lemma update_full_leds :
  reads_full cfg d ->
  green_led m = false /\ yellow_led m = false /\ red_led m = true.
Proof.
  intros H. unfold m. rewrite (update_full H).
  destruct (should_send_email cfg (time_at_decision w) self);
    [|repeat split].
  destruct (send_email_alert (post_outcome w)) as [[[|]|e] o]; repeat split.
Qed.

Lemma indicated_of_leds (g y r : bool) :
  green_led m = g /\ yellow_led m = y /\ red_led m = r ->
  level_shown cfg w self d =
  match g, y, r with
  | true, false, false => Some EMPTY_BIN
  | false, true, false => Some PARTIAL_BIN
  | false, false, true => Some FULL_BIN
  | _, _, _ => None
  end.
Proof.
  intros (Hg & Hy & Hr). unfold level_shown, indicated. fold m.
  now rewrite Hg, Hy, Hr.
Qed.

Lemma shown_empty :
  (inject_Z (EMPTY cfg) < d)%Q -> level_shown cfg w self d = Some EMPTY_BIN.
Proof.
  intros H. apply (indicated_of_leds true false false).
  now apply update_empty_leds.
Qed.

Lemma shown_partial :
  (d <= inject_Z (EMPTY cfg))%Q -> (inject_Z (HALF_FULL cfg) < d)%Q ->
  level_shown cfg w self d = Some PARTIAL_BIN.
Proof.
  intros H1 H2. apply (indicated_of_leds false true false).
  now apply update_partial_leds.
Qed.

Lemma shown_full :
  reads_full cfg d -> level_shown cfg w self d = Some FULL_BIN.
Proof.
  intros H. apply (indicated_of_leds false false true).
  now apply update_full_leds.
Qed.

End Branches.

(** ** Fill classifier *)

(** C1, as the code has it: with the thresholds 30 and 10, a reading above
    30 shows EMPTY, a reading above 10 and up to 30 shows PARTIAL, a reading
    up to 10 shows FULL (for every reading, negative ones included); a
    reading equal to 30 shows PARTIAL and a reading equal to 10 shows
    FULL. *)
Theorem classification_by_ranges (w : world) (self : WasteBinMonitor) (d : Q) :
  ((30 < d)%Q -> level_shown CONFIG w self d = Some EMPTY_BIN) /\
  ((10 < d)%Q /\ (d <= 30)%Q -> level_shown CONFIG w self d = Some PARTIAL_BIN) /\
  ((d <= 10)%Q -> level_shown CONFIG w self d = Some FULL_BIN) /\
  ((d == 30)%Q -> level_shown CONFIG w self d = Some PARTIAL_BIN) /\
  ((d == 10)%Q -> level_shown CONFIG w self d = Some FULL_BIN).
Proof.
  repeat split.
  - intros H. now apply shown_empty.
  - intros [H1 H2]. now apply shown_partial.
  - intros H. apply shown_full. split; [|exact H].
    apply Qle_trans with (y := 10%Q); [exact H | discriminate].
  - intros H. apply shown_partial; simpl; rewrite H;
      [apply Qle_refl | reflexivity].
  - intros H. apply shown_full. split; simpl; rewrite H;
      [discriminate | apply Qle_refl].
Qed.

(** C1, instances: readings 50, 30, 25, 10 and 8 on a fresh monitor. *)
Lemma classification_by_ranges_witness :
  level_shown CONFIG (mkWorld 0 (Responds 201) 0) __init__ 50 = Some EMPTY_BIN /\
  level_shown CONFIG (mkWorld 0 (Responds 201) 0) __init__ 25 = Some PARTIAL_BIN /\
  level_shown CONFIG (mkWorld 0 (Responds 201) 0) __init__ 8 = Some FULL_BIN /\
  level_shown CONFIG (mkWorld 0 (Responds 201) 0) __init__ 30 = Some PARTIAL_BIN /\
  level_shown CONFIG (mkWorld 0 (Responds 201) 0) __init__ 10 = Some FULL_BIN.
Proof.
  split; [|split; [|split; [|split]]].
  - destruct (classification_by_ranges (mkWorld 0 (Responds 201) 0) __init__ 50)
      as (H & _). apply H. reflexivity.
  - destruct (classification_by_ranges (mkWorld 0 (Responds 201) 0) __init__ 25)
      as (_ & H & _). apply H. split; [reflexivity | discriminate].
  - destruct (classification_by_ranges (mkWorld 0 (Responds 201) 0) __init__ 8)
      as (_ & _ & H & _). apply H. discriminate.
  - destruct (classification_by_ranges (mkWorld 0 (Responds 201) 0) __init__ 30)
      as (_ & _ & _ & H & _). apply H. reflexivity.
  - destruct (classification_by_ranges (mkWorld 0 (Responds 201) 0) __init__ 10)
      as (_ & _ & _ & _ & H). apply H. reflexivity.
Defined.

(** C1, the tie at the EMPTY boundary: a reading of exactly 30
    on a fresh monitor lights the yellow LED and prints the PARTIAL line;
    it does not show EMPTY. *)
Lemma reading_at_empty_boundary_is_partial :
  level_shown CONFIG (mkWorld 0 (Responds 201) 0) __init__ 30 = Some PARTIAL_BIN /\
  level_shown CONFIG (mkWorld 0 (Responds 201) 0) __init__ 30 <> Some EMPTY_BIN /\
  out (update_bin_status CONFIG (mkWorld 0 (Responds 201) 0) __init__ 30) =
    [Print "Bin is partially full."].
Proof. repeat split. discriminate. Qed.

Ltac ranked := split; [reflexivity | split; [reflexivity | simpl; lia]].

(** C10: the classification is monotone.  With thresholds whose EMPTY
    boundary lies above the HALF_FULL boundary, of two readings [d1 <= d2]
    the smaller one is shown at least as full as the larger one, in the
    order FULL > PARTIAL > EMPTY, whatever the monitor states and inputs
    of the two calls. *)
Theorem classification_monotone (cfg : config) (w1 w2 : world)
    (self1 self2 : WasteBinMonitor) (d1 d2 : Q) :
  HALF_FULL cfg < EMPTY cfg ->
  (d1 <= d2)%Q ->
  exists l1 l2,
    level_shown cfg w1 self1 d1 = Some l1 /\
    level_shown cfg w2 self2 d2 = Some l2 /\
    fill_rank l2 <= fill_rank l1.
Proof.
  intros _ Hle.
  destruct (Qlt_le_dec (inject_Z (EMPTY cfg)) d2) as [E2 | E2].
  - (* d2 is EMPTY: nothing ranks below it *)
    rewrite (shown_empty cfg w2 self2 d2 E2).
    destruct (reads_full_or_not cfg d1) as [F1 | [E1 | P1]].
    + rewrite (shown_full _ _ _ _ F1). exists FULL_BIN, EMPTY_BIN; ranked.
    + rewrite (shown_empty _ _ _ _ E1). exists EMPTY_BIN, EMPTY_BIN; ranked.
    + destruct (Qlt_le_dec (inject_Z (EMPTY cfg)) d1) as [E1 | E1].
      * rewrite (shown_empty _ _ _ _ E1). exists EMPTY_BIN, EMPTY_BIN; ranked.
      * rewrite (shown_partial _ _ _ _ E1 P1).
        exists PARTIAL_BIN, EMPTY_BIN; ranked.
  - assert (E1 : (d1 <= inject_Z (EMPTY cfg))%Q) by (apply Qle_trans with d2; assumption).
    destruct (Qlt_le_dec (inject_Z (HALF_FULL cfg)) d2) as [P2 | P2].
    + (* d2 is PARTIAL: d1 is PARTIAL or FULL *)
      rewrite (shown_partial _ w2 self2 _ E2 P2).
      destruct (Qlt_le_dec (inject_Z (HALF_FULL cfg)) d1) as [P1 | P1].
      * rewrite (shown_partial _ _ _ _ E1 P1).
        exists PARTIAL_BIN, PARTIAL_BIN; ranked.
      * rewrite (shown_full _ _ _ _ (conj E1 P1)).
        exists FULL_BIN, PARTIAL_BIN; ranked.
    + (* d2 is FULL: so is d1 *)
      assert (P1 : (d1 <= inject_Z (HALF_FULL cfg))%Q)
        by (apply Qle_trans with d2; assumption).
      rewrite (shown_full _ w2 self2 _ (conj E2 P2)).
      rewrite (shown_full _ w1 self1 _ (conj E1 P1)).
      exists FULL_BIN, FULL_BIN; ranked.
Qed.

(** C10, instance: readings 8 and 25 with the configured thresholds. *)
Lemma classification_monotone_witness :
  exists l1 l2,
    level_shown CONFIG (mkWorld 0 (Responds 201) 0) __init__ 8 = Some l1 /\
    level_shown CONFIG (mkWorld 7 (PostRaises (Exception "down")) 9)
                (marked_full __init__) 25 = Some l2 /\
    fill_rank l2 <= fill_rank l1.
Proof.
  apply (classification_monotone CONFIG (mkWorld 0 (Responds 201) 0)
           (mkWorld 7 (PostRaises (Exception "down")) 9)
           __init__ (marked_full __init__) 8 25).
  - simpl. lia.
  - discriminate.
Defined.

(** ** Indicator driver *)

(** C8: after every call of [update_bin_status], whatever the reading, the
    prior state, the clock and the transport (a raising one included),
    exactly one of the three LEDs is on: the green one alone for an EMPTY
    reading, the yellow one alone for a PARTIAL reading, the red one alone
    for a FULL reading. *)
Theorem one_led_after_update (cfg : config) (w : world)
    (self : WasteBinMonitor) (d : Q) :
  let m := after (update_bin_status cfg w self d) in
  lit m = 1%nat /\
  ((inject_Z (EMPTY cfg) < d)%Q ->
     green_led m = true /\ yellow_led m = false /\ red_led m = false) /\
  ((d <= inject_Z (EMPTY cfg))%Q /\ (inject_Z (HALF_FULL cfg) < d)%Q ->
     green_led m = false /\ yellow_led m = true /\ red_led m = false) /\
  ((d <= inject_Z (EMPTY cfg))%Q /\ (d <= inject_Z (HALF_FULL cfg))%Q ->
     green_led m = false /\ yellow_led m = false /\ red_led m = true).
Proof.
  intros m. split; [|split; [|split]].
  - assert (H : (green_led m, yellow_led m, red_led m) = (true, false, false)
             \/ (green_led m, yellow_led m, red_led m) = (false, true, false)
             \/ (green_led m, yellow_led m, red_led m) = (false, false, true)).
    { destruct (Qlt_le_dec (inject_Z (EMPTY cfg)) d) as [E | E].
      - left. destruct (update_empty_leds cfg w self d E) as (G & Y & R).
        fold m in G, Y, R. now rewrite G, Y, R.
      - destruct (Qlt_le_dec (inject_Z (HALF_FULL cfg)) d) as [P | P].
        + right; left.
          destruct (update_partial_leds cfg w self d E P) as (G & Y & R).
          fold m in G, Y, R. now rewrite G, Y, R.
        + right; right.
          destruct (update_full_leds cfg w self d (conj E P)) as (G & Y & R).
          fold m in G, Y, R. now rewrite G, Y, R. }
    unfold lit.
    destruct H as [H | [H | H]]; injection H as -> -> ->; reflexivity.
  - intros E. now apply update_empty_leds.
  - intros [E P]. now apply update_partial_leds.
  - intros F. now apply update_full_leds.
Qed.

(** C8, instances: readings 50, 25 and 8, the last one with a transport
    that raises before the request is made. *)
Lemma one_led_after_update_witness :
  (let m := after (update_bin_status CONFIG (mkWorld 0 (Responds 201) 0)
                     (marked_full __init__) 50) in
   green_led m = true /\ yellow_led m = false /\ red_led m = false) /\
  (let m := after (update_bin_status CONFIG (mkWorld 0 (Responds 201) 0)
                     __init__ 25) in
   green_led m = false /\ yellow_led m = true /\ red_led m = false) /\
  (let m := after (update_bin_status CONFIG
                     (mkWorld 0 (BuildRaises (Exception "memory")) 0)
                     __init__ 8) in
   green_led m = false /\ yellow_led m = false /\ red_led m = true).
Proof.
  split; [|split].
  - destruct (one_led_after_update CONFIG (mkWorld 0 (Responds 201) 0)
                (marked_full __init__) 50) as (_ & H & _).
    apply H. reflexivity.
  - destruct (one_led_after_update CONFIG (mkWorld 0 (Responds 201) 0)
                __init__ 25) as (_ & _ & H & _).
    apply H. split; [discriminate | reflexivity].
  - destruct (one_led_after_update CONFIG
                (mkWorld 0 (BuildRaises (Exception "memory")) 0) __init__ 8)
      as (_ & _ & _ & H).
    apply H. split; discriminate.
Defined.

(** ** Notification throttle *)

Lemma should_send_email_marked cfg now self :
  should_send_email cfg now (marked_full self) = should_send_email cfg now self.
Proof. reflexivity. Qed.

Lemma alert_not_in_full_line cfg : ~ In (alert_of cfg) [Print "Bin is full."].
Proof. intros [H | []]. discriminate H. Qed.

(** On a FULL reading the alert goes out exactly when [should_send_email]
    says so. *)
Lemma alert_iff_should_send cfg w self d :
  reads_full cfg d ->
  In (alert_of cfg) (out (update_bin_status cfg w self d)) <->
  should_send_email cfg (time_at_decision w) self = true.
Proof.
  intros F. rewrite (update_full cfg w self d F).
  destruct (should_send_email cfg (time_at_decision w) self).
  - split; [reflexivity | intros _].
    destruct (send_email_alert (post_outcome w)) as [[[|]|e] o];
      simpl; auto.
  - split; [intros H | discriminate].
    destruct (alert_not_in_full_line cfg H).
Qed.

Lemma not_full_cases cfg d :
  reads_not_full cfg d ->
  (inject_Z (EMPTY cfg) < d)%Q \/
  ((d <= inject_Z (EMPTY cfg))%Q /\ (inject_Z (HALF_FULL cfg) < d)%Q).
Proof.
  intros [E | P]; [now left|].
  destruct (Qlt_le_dec (inject_Z (EMPTY cfg)) d); [now left | now right].
Qed.

(** A non-FULL reading on a monitor flagged full clears the flag and
    re-arms the first-detection flag. *)
Lemma not_full_rearms cfg w self d :
  reads_not_full cfg d ->
  is_currently_full self = true ->
  let m := after (update_bin_status cfg w self d) in
  is_currently_full m = false /\ first_full_detection m = true.
Proof.
  intros N Hfull.
  destruct (not_full_cases cfg d N) as [E | [E P]];
    [rewrite (update_empty cfg w self d E)
    | rewrite (update_partial cfg w self d E P)];
    simpl; rewrite Hfull; split; reflexivity.
Qed.

(** A non-FULL reading never disarms the first-detection flag. *)
Lemma not_full_keeps_armed cfg w self d :
  reads_not_full cfg d ->
  first_full_detection self = true ->
  first_full_detection (after (update_bin_status cfg w self d)) = true.
Proof.
  intros N Harmed.
  destruct (not_full_cases cfg d N) as [E | [E P]];
    [rewrite (update_empty cfg w self d E)
    | rewrite (update_partial cfg w self d E P)];
    simpl; destruct (is_currently_full self); simpl; auto.
Qed.

Lemma feed_not_full_armed cfg inputs : forall self,
  Forall (fun wd => reads_not_full cfg (snd wd)) inputs ->
  first_full_detection self = true ->
  first_full_detection (feed cfg inputs self) = true.
Proof.
  induction inputs as [| [w d] inputs IH]; intros self Hall Harmed.
  - exact Harmed.
  - inversion Hall as [| x l Hd Hrest]; subst.
    simpl. apply IH; [exact Hrest|].
    now apply not_full_keeps_armed.
Qed.

(** A FULL reading sets the full flag, whatever the send does. *)
Lemma full_sets_flag cfg w self d :
  reads_full cfg d ->
  is_currently_full (after (update_bin_status cfg w self d)) = true.
Proof.
  intros F. rewrite (update_full cfg w self d F).
  destruct (should_send_email cfg (time_at_decision w) self); [|reflexivity].
  destruct (send_email_alert (post_outcome w)) as [[[|]|e] o]; reflexivity.
Qed.

(** What a FULL reading with a send decision does to the throttle state. *)
Lemma full_send_effect cfg w self d :
  reads_full cfg d ->
  should_send_email cfg (time_at_decision w) self = true ->
  let m := after (update_bin_status cfg w self d) in
  (fst (send_email_alert (post_outcome w)) = Returns true ->
   last_email_time m = time_after_send w /\ first_full_detection m = false) /\
  (fst (send_email_alert (post_outcome w)) <> Returns true ->
   last_email_time m = last_email_time self /\
   first_full_detection m = first_full_detection self).
Proof.
  intros F S. rewrite (update_full cfg w self d F), S.
  destruct (send_email_alert (post_outcome w)) as [[[|]|e] o]; simpl;
    split; intros H; try (split; reflexivity); try discriminate H;
    now destruct H.
Qed.

(** C2: throttle safety.  On a monitor that has seen only non-FULL readings
    since it was constructed, the first FULL reading finds
    [should_send_email] true and the alert is issued; if that send
    succeeds, a FULL reading that follows at once, less than the cooldown
    after the recorded send time, finds [should_send_email] false and
    issues no alert. *)
Theorem throttle_safety (cfg : config) (earlier : list (world * Q))
    (w1 w2 : world) (d1 d2 : Q) :
  Forall (fun wd => reads_not_full cfg (snd wd)) earlier ->
  reads_full cfg d1 ->
  reads_full cfg d2 ->
  let m0 := feed cfg earlier __init__ in
  let s1 := update_bin_status cfg w1 m0 d1 in
  let s2 := update_bin_status cfg w2 (after s1) d2 in
  (should_send_email cfg (time_at_decision w1) (marked_full m0) = true /\
   In (alert_of cfg) (out s1)) /\
  (fst (send_email_alert (post_outcome w1)) = Returns true ->
   time_at_decision w2 - last_email_time (after s1) < EMAIL_DELAY cfg ->
   last_email_time (after s1) = time_after_send w1 /\
   should_send_email cfg (time_at_decision w2) (marked_full (after s1)) = false /\
   ~ In (alert_of cfg) (out s2)).
Proof.
  intros Hearlier F1 F2 m0 s1 s2.
  assert (Harmed : first_full_detection m0 = true)
    by (apply feed_not_full_armed; [exact Hearlier | reflexivity]).
  assert (S1 : should_send_email cfg (time_at_decision w1) m0 = true)
    by (unfold should_send_email; now rewrite Harmed).
  split.
  - split; [exact S1|]. now apply alert_iff_should_send.
  - intros Hsent Hsoon.
    destruct (full_send_effect cfg w1 m0 d1 F1 S1) as [Hok _].
    destruct (Hok Hsent) as [Htime Hfirst]. fold s1 in Htime, Hfirst.
    assert (S2 : should_send_email cfg (time_at_decision w2) (after s1) = false).
    { unfold should_send_email. rewrite Hfirst.
      destruct (Z.geb_spec (time_at_decision w2 - last_email_time (after s1))
                           (EMAIL_DELAY cfg)); [lia | reflexivity]. }
    split; [exact Htime | split; [exact S2|]].
    intros Hin. apply (alert_iff_should_send cfg w2 (after s1) d2 F2) in Hin.
    congruence.
Qed.

(** C2, instance: readings 50, 25, 8, 8 at times 0, 1, 2, 3 with a
    transport that answers 201. *)
Lemma throttle_safety_witness :
  let m0 := feed CONFIG [(mkWorld 0 (Responds 201) 0, 50%Q);
                         (mkWorld 1 (Responds 201) 1, 25%Q)] __init__ in
  let s1 := update_bin_status CONFIG (mkWorld 2 (Responds 201) 2) m0 8 in
  let s2 := update_bin_status CONFIG (mkWorld 3 (Responds 201) 3) (after s1) 8 in
  (should_send_email CONFIG 2 (marked_full m0) = true /\
   In (alert_of CONFIG) (out s1)) /\
  last_email_time (after s1) = 2 /\
  should_send_email CONFIG 3 (marked_full (after s1)) = false /\
  ~ In (alert_of CONFIG) (out s2).
Proof.
  assert (N : Forall (fun wd : world * Q => reads_not_full CONFIG (snd wd))
                [(mkWorld 0 (Responds 201) 0, 50%Q);
                 (mkWorld 1 (Responds 201) 1, 25%Q)]).
  { constructor; [left; reflexivity|].
    constructor; [right; reflexivity | constructor]. }
  assert (F : reads_full CONFIG 8) by (split; discriminate).
  destruct (throttle_safety CONFIG _ (mkWorld 2 (Responds 201) 2)
              (mkWorld 3 (Responds 201) 3) 8 8 N F F) as [H1 H2].
  split; [exact H1|].
  apply H2; [reflexivity | vm_compute; reflexivity].
Defined.

(** C3: throttle liveness.  With the first-detection flag cleared, a FULL
    reading taken when at least the cooldown has elapsed since the recorded
    send time (exactly the cooldown included) finds [should_send_email]
    true, and the alert is issued. *)
Theorem throttle_liveness (cfg : config) (w : world)
    (self : WasteBinMonitor) (d : Q) :
  first_full_detection self = false ->
  time_at_decision w - last_email_time self >= EMAIL_DELAY cfg ->
  reads_full cfg d ->
  should_send_email cfg (time_at_decision w) (marked_full self) = true /\
  In (alert_of cfg) (out (update_bin_status cfg w self d)).
Proof.
  intros Hfirst Hlate F.
  assert (S : should_send_email cfg (time_at_decision w) self = true).
  { unfold should_send_email. rewrite Hfirst.
    destruct (Z.geb_spec (time_at_decision w - last_email_time self)
                         (EMAIL_DELAY cfg)); [reflexivity | lia]. }
  split; [exact S|]. now apply alert_iff_should_send.
Qed.

(** C3, instance: a send recorded at time 2, the next FULL reading at time
    302, exactly the cooldown of 300 later. *)
Lemma throttle_liveness_witness :
  let self := set_first_full_detection false
                (set_last_email_time 2 (marked_full __init__)) in
  should_send_email CONFIG 302 (marked_full self) = true /\
  In (alert_of CONFIG)
     (out (update_bin_status CONFIG (mkWorld 302 (Responds 201) 302) self 8)).
Proof.
  apply (throttle_liveness CONFIG (mkWorld 302 (Responds 201) 302)
           (set_first_full_detection false
              (set_last_email_time 2 (marked_full __init__))) 8).
  - reflexivity.
  - simpl. lia.
  - split; discriminate.
Defined.

(** C4: re-arm.  A non-FULL reading taken while the full flag is set
    clears the flag and sets the first-detection flag; hence in a sequence
    FULL, non-FULL, FULL the second FULL reading finds [should_send_email]
    true and issues the alert, whatever the clock reads and whatever the
    first send did. *)
Theorem rearm_after_not_full (cfg : config) (w1 w2 w3 : world)
    (self : WasteBinMonitor) (d1 d2 d3 : Q) :
  reads_full cfg d1 ->
  reads_not_full cfg d2 ->
  reads_full cfg d3 ->
  (is_currently_full self = true ->
   is_currently_full (after (update_bin_status cfg w2 self d2)) = false /\
   first_full_detection (after (update_bin_status cfg w2 self d2)) = true) /\
  (let s1 := update_bin_status cfg w1 self d1 in
   let s2 := update_bin_status cfg w2 (after s1) d2 in
   let s3 := update_bin_status cfg w3 (after s2) d3 in
   should_send_email cfg (time_at_decision w3) (marked_full (after s2)) = true /\
   In (alert_of cfg) (out s3)).
Proof.
  intros F1 N2 F3. split.
  - intros Hfull. now apply not_full_rearms.
  - intros s1 s2 s3.
    assert (Hflag : is_currently_full (after s1) = true)
      by now apply full_sets_flag.
    destruct (not_full_rearms cfg w2 (after s1) d2 N2 Hflag) as [_ Harmed].
    fold s2 in Harmed.
    assert (S : should_send_email cfg (time_at_decision w3) (after s2) = true)
      by (unfold should_send_email; now rewrite Harmed).
    split; [exact S|]. now apply alert_iff_should_send.
Qed.

(** C4, instance: readings 8, 50, 8 at times 2, 3, 4, each send
    answered 201: the third call alerts one second after the first. *)
Lemma rearm_after_not_full_witness :
  let s1 := update_bin_status CONFIG (mkWorld 2 (Responds 201) 2) __init__ 8 in
  let s2 := update_bin_status CONFIG (mkWorld 3 (Responds 201) 3) (after s1) 50 in
  let s3 := update_bin_status CONFIG (mkWorld 4 (Responds 201) 4) (after s2) 8 in
  last_email_time (after s2) = 2 /\
  should_send_email CONFIG 4 (marked_full (after s2)) = true /\
  In (alert_of CONFIG) (out s3).
Proof.
  split; [reflexivity|].
  apply (rearm_after_not_full CONFIG (mkWorld 2 (Responds 201) 2)
           (mkWorld 3 (Responds 201) 3) (mkWorld 4 (Responds 201) 4)
           __init__ 8 50 8).
  - split; discriminate.
  - left; reflexivity.
  - split; discriminate.
Defined.

(** The try block of [send_email_alert]: a post that raises, or answers
    anything but 201, is a returned [False]. *)
Lemma send_email_alert_failure (e : exn) (status_code : Z) :
  fst (send_email_alert (PostRaises e)) = Returns false /\
  (status_code <> 201 ->
   fst (send_email_alert (Responds status_code)) = Returns false).
Proof.
  split; [reflexivity|]. intros H. simpl.
  destruct (Z.eqb_spec status_code 201); [contradiction | reflexivity].
Qed.

(** C5: a failed send changes nothing.  On a FULL reading for which the
    send is attempted, [last_email_time] and [first_full_detection] keep
    their values unless [send_email_alert] returns [True]: in particular
    when the post raises or answers a status other than 201.  When it
    returns [True], [last_email_time] becomes the time read after the
    send and [first_full_detection] becomes false. *)
Theorem failed_send_keeps_state (cfg : config) (w : world)
    (self : WasteBinMonitor) (d : Q) :
  reads_full cfg d ->
  should_send_email cfg (time_at_decision w) (marked_full self) = true ->
  let m := after (update_bin_status cfg w self d) in
  (fst (send_email_alert (post_outcome w)) = Returns true ->
   last_email_time m = time_after_send w /\ first_full_detection m = false) /\
  (fst (send_email_alert (post_outcome w)) <> Returns true ->
   last_email_time m = last_email_time self /\
   first_full_detection m = first_full_detection self) /\
  ((exists e, post_outcome w = PostRaises e) \/
   (exists c, post_outcome w = Responds c /\ c <> 201) ->
   ret (update_bin_status cfg w self d) = Returns tt /\
   last_email_time m = last_email_time self /\
   first_full_detection m = first_full_detection self).
Proof.
  intros F S m.
  destruct (full_send_effect cfg w self d F S) as [Hok Hfail].
  split; [exact Hok | split; [exact Hfail|]].
  intros Hpost.
  assert (Hret : fst (send_email_alert (post_outcome w)) = Returns false).
  { destruct Hpost as [[e ->] | [c [-> Hc]]].
    - exact (proj1 (send_email_alert_failure e 0)).
    - exact (proj2 (send_email_alert_failure (Exception "none") c) Hc). }
  split; [|apply Hfail; congruence].
  rewrite (update_full cfg w self d F).
  rewrite should_send_email_marked in S. rewrite S.
  destruct (send_email_alert (post_outcome w)) as [[[|]|e] o];
    simpl in Hret; try discriminate Hret; reflexivity.
Qed.

(** C5, instance: a first FULL reading at time 7 whose post raises; the
    monitor keeps time 0 and stays armed. *)
Lemma failed_send_keeps_state_witness :
  let w := mkWorld 7 (PostRaises (Exception "ECONNRESET")) 9 in
  let m := after (update_bin_status CONFIG w __init__ 8) in
  ret (update_bin_status CONFIG w __init__ 8) = Returns tt /\
  last_email_time m = 0 /\ first_full_detection m = true.
Proof.
  intros w m.
  destruct (failed_send_keeps_state CONFIG w __init__ 8) as (_ & _ & H).
  - split; discriminate.
  - reflexivity.
  - apply H. left. exists (Exception "ECONNRESET"). reflexivity.
Defined.

(** ** Pulse timer and distance estimator *)

Lemma wait_echo_high_shape timeout : forall echo stamp ticks,
  wait_echo_high timeout stamp echo ticks =
  wait_while false timeout stamp echo ticks.
Proof.
  induction echo as [| [|] echo IH]; intros stamp ticks; simpl; auto.
  destruct ticks as [| now1 [| now2 ticks]]; auto.
  now rewrite IH.
Qed.

Lemma wait_echo_low_shape timeout : forall echo stamp ticks,
  wait_echo_low timeout stamp echo ticks =
  wait_while true timeout stamp echo ticks.
Proof.
  induction echo as [| [|] echo IH]; intros stamp ticks; simpl; auto.
  destruct ticks as [| now1 [| now2 ticks]]; auto.
  now rewrite IH.
Qed.

Lemma odd_position (i : nat) : (2 * S i + 1 = S (S (2 * i + 1)))%nat.
Proof. lia. Qed.

(** A wait ends in [Expired] exactly when the pin held its level until a
    deadline check found the clock past the deadline. *)
Lemma wait_while_expired level timeout : forall echo ticks stamp,
  wait_while level timeout stamp echo ticks = Some Expired <->
  held_past_deadline level timeout echo ticks.
Proof.
  induction echo as [| b echo IH]; intros ticks stamp; simpl.
  - split; [discriminate|]. intros (k & Hecho & _).
    specialize (Hecho 0%nat (Nat.le_0_l k)). discriminate Hecho.
  - destruct (Bool.eqb b level) eqn:Hb.
    + apply Bool.eqb_prop in Hb. subst b.
      destruct ticks as [| now1 [| now2 ticks]].
      * split; [discriminate|]. intros (k & _ & _ & now & Hnow & _).
        destruct (2 * k + 1)%nat; discriminate Hnow.
      * split; [discriminate|]. intros (k & _ & Hbefore & now & Hnow & _).
        destruct k as [| k]; [discriminate Hnow|].
        rewrite odd_position in Hnow. discriminate Hnow.
      * destruct (Z.gtb_spec (ticks_diff now2 timeout) 0) as [Hpast | Hnot].
        -- split; [intros _ | reflexivity].
           exists 0%nat. split; [|split].
           ++ intros i Hi. replace i with 0%nat by lia. reflexivity.
           ++ intros i Hi. lia.
           ++ exists now2. split; [reflexivity | lia].
        -- rewrite IH. split.
           ++ intros (k & Hecho & Hbefore & now & Hnow & Hpast).
              exists (S k). split; [|split].
              ** intros [| i] Hi; [reflexivity|]. apply Hecho. lia.
              ** intros [| i] Hi.
                 --- exists now2. split; [reflexivity | lia].
                 --- rewrite odd_position. apply Hbefore. lia.
              ** exists now. rewrite odd_position. split; assumption.
           ++ intros (k & Hecho & Hbefore & now & Hnow & Hpast).
              destruct k as [| k].
              ** simpl in Hnow. injection Hnow as ->. lia.
              ** exists k. split; [|split].
                 --- intros i Hi. apply (Hecho (S i)). lia.
                 --- intros i Hi.
                     destruct (Hbefore (S i)) as (t & Ht & Hle); [lia|].
                     rewrite odd_position in Ht. now exists t.
                 --- exists now. rewrite odd_position in Hnow.
                     split; assumption.
    + split; [discriminate|]. intros (k & Hecho & _).
      specialize (Hecho 0%nat (Nat.le_0_l k)). simpl in Hecho.
      injection Hecho as ->. now rewrite Bool.eqb_reflx in Hb.
Qed.

(** [measure_distance] in terms of its two waits. *)
Lemma measure_distance_high_expired echo ticks now0 :
  wait_echo_high (ticks_add now0 30000) now0 echo ticks = Some Expired ->
  measure_distance echo (now0 :: ticks) = Some 100%Q.
Proof. intros H. unfold measure_distance. now rewrite H. Qed.

Lemma measure_distance_low_expired echo ticks now0 stamp echo' ticks' :
  wait_echo_high (ticks_add now0 30000) now0 echo ticks =
    Some (Edge stamp echo' ticks') ->
  wait_echo_low (ticks_add now0 30000) now0 echo' ticks' = Some Expired ->
  measure_distance echo (now0 :: ticks) = Some 100%Q.
Proof. intros H1 H2. unfold measure_distance. now rewrite H1, H2. Qed.

(** C6: timeout safety.  If the echo pin stays low until a deadline check
    of the first wait finds the clock more than 30000 us past the start,
    or the first wait sees the rising edge and the pin then stays high
    until a deadline check of the second wait does, [measure_distance]
    returns the number 100 (it returns; nothing is raised); and with the
    thresholds 30 and 10 the reading 100 shows EMPTY, not FULL, returns
    normally and issues no alert. *)
Theorem timeout_reads_empty (echo : list bool) (ticks : list Z) (now0 : Z)
    (w : world) (self : WasteBinMonitor) :
  held_past_deadline false (ticks_add now0 30000) echo ticks \/
  (exists stamp echo' ticks',
     wait_echo_high (ticks_add now0 30000) now0 echo ticks =
       Some (Edge stamp echo' ticks') /\
     held_past_deadline true (ticks_add now0 30000) echo' ticks') ->
  measure_distance echo (now0 :: ticks) = Some 100%Q /\
  level_shown CONFIG w self 100 = Some EMPTY_BIN /\
  level_shown CONFIG w self 100 <> Some FULL_BIN /\
  ret (update_bin_status CONFIG w self 100) = Returns tt /\
  ~ In (alert_of CONFIG) (out (update_bin_status CONFIG w self 100)).
Proof.
  intros Hwait.
  assert (E : (inject_Z (EMPTY CONFIG) < 100)%Q) by reflexivity.
  split; [|split; [|split; [|split]]].
  - destruct Hwait as [Hlow | (stamp & echo' & ticks' & Hedge & Hhigh)].
    + apply measure_distance_high_expired.
      rewrite wait_echo_high_shape. now apply wait_while_expired.
    + apply (measure_distance_low_expired _ _ _ _ _ _ Hedge).
      rewrite wait_echo_low_shape. now apply wait_while_expired.
  - now apply shown_empty.
  - rewrite (shown_empty CONFIG w self 100 E). discriminate.
  - now rewrite (update_empty CONFIG w self 100 E).
  - rewrite (update_empty CONFIG w self 100 E). simpl.
    intros [H | []]. discriminate H.
Qed.

(** C6, instance: a disconnected sensor.  The pin reads low twice; the
    clock starts at 0 and the second deadline check reads 30001. *)
Lemma timeout_reads_empty_witness :
  measure_distance [false; false] [0; 10; 20; 30000; 30001] = Some 100%Q /\
  level_shown CONFIG (mkWorld 0 (Responds 201) 0) (marked_full __init__) 100
    = Some EMPTY_BIN.
Proof.
  destruct (timeout_reads_empty [false; false] [10; 20; 30000; 30001] 0
              (mkWorld 0 (Responds 201) 0) (marked_full __init__))
    as (H1 & H2 & _).
  - left. exists 1%nat. split; [|split].
    + intros [| [| i]] Hi; [reflexivity | reflexivity | lia].
    + intros [| i] Hi; [|lia]. exists 20. split; [reflexivity|].
      vm_compute. discriminate.
    + exists 30001. split; [reflexivity|]. vm_compute. reflexivity.
  - split; assumption.
Defined.

(** C7, the code at a short echo pulse.  The pin reads low, high, low on
    three successive samples while the clock reads 1000, 1010, 1015: the
    first wait records [pulse_start = 1010] and sees the edge, the second
    wait finds the pin already low and never assigns [pulse_end], which
    still holds the initial 1000.  No deadline is hit, and the distance
    returned is [-10 / 2 / 29.1], a negative number; it is then shown as
    FULL and alerted. *)
Theorem short_echo_pulse_reads_negative :
  wait_echo_high (ticks_add 1000 30000) 1000 [false; true; false] [1010; 1015]
    = Some (Edge 1010 [false] []) /\
  wait_echo_low (ticks_add 1000 30000) 1000 [false] []
    = Some (Edge 1000 [] []) /\
  measure_distance [false; true; false] [1000; 1010; 1015]
    = Some (distance_of_pulse (-10)) /\
  (distance_of_pulse (-10) < 0)%Q /\
  level_shown CONFIG (mkWorld 0 (Responds 201) 0) __init__ (distance_of_pulse (-10))
    = Some FULL_BIN /\
  In (alert_of CONFIG)
     (out (update_bin_status CONFIG (mkWorld 0 (Responds 201) 0) __init__
             (distance_of_pulse (-10)))).
Proof.
  split; [reflexivity|]. split; [reflexivity|]. split; [reflexivity|].
  split; [reflexivity|]. split; [reflexivity|].
  vm_compute. right. left. reflexivity.
Qed.

(** *** When the falling edge is sampled

    The negative reading above needs the second wait to take no sample.
    The lemmas below show that this is the only way: on a clock that
    never runs backwards and covers less than half a tick period, a
    script in which the pin is still high when the second wait samples it
    never yields a negative distance. *)

Lemma ticks_diff_wrap (x y : Z) :
  - 2 ^ 29 <= x - y < 2 ^ 29 -> ticks_diff (wrap x) (wrap y) = x - y.
Proof.
  intros H. unfold ticks_diff, wrap.
  change (TICKS_PERIOD / 2) with (2 ^ 29).
  rewrite <- Zplus_mod_idemp_l, <- Zminus_mod, Zplus_mod_idemp_l.
  rewrite Z.mod_small; [lia|].
  change TICKS_PERIOD with (2 ^ 30).
  change (2 ^ 30) with (2 * 2 ^ 29). lia.
Qed.

Lemma distance_of_pulse_nonneg (p : Z) :
  0 <= p -> (0 <= distance_of_pulse p)%Q.
Proof.
  intros H. unfold distance_of_pulse, Qle, Qdiv, Qmult, Qinv. simpl. lia.
Qed.

(** The stamp a wait hands on is a clock reading no older than the one it
    was given, and the readings left over come after it. *)
Lemma wait_while_stamp level timeout : forall echo T S stamp echo' ticks',
  StronglySorted Z.le (S :: T) ->
  wait_while level timeout (wrap S) echo (map wrap T) =
    Some (Edge stamp echo' ticks') ->
  exists S' T',
    stamp = wrap S' /\ ticks' = map wrap T' /\
    StronglySorted Z.le (S' :: T') /\
    S <= S' /\ (S' = S \/ In S' T) /\ incl T' T.
Proof.
  induction echo as [| b echo IH]; intros T S stamp echo' ticks' Hsorted;
    simpl; [discriminate|].
  destruct (Bool.eqb b level).
  - destruct T as [| A [| B T]]; simpl; try discriminate.
    destruct (ticks_diff (wrap B) timeout >? 0); [discriminate|].
    intros Hwait.
    inversion Hsorted as [| ? ? Htail Hhead]; subst.
    inversion Htail as [| ? ? Htail' Hhead']; subst.
    inversion Htail' as [| ? ? Htail'' Hhead'']; subst.
    inversion Hhead as [| ? ? HSA _]; subst.
    inversion Hhead' as [| ? ? _ HA]; subst.
    destruct (IH T A stamp echo' ticks' (SSorted_cons A Htail'' HA) Hwait)
      as (S' & T' & -> & -> & Hs & Hle & Hin & Hincl).
    exists S', T'. repeat split; auto.
    + lia.
    + right. destruct Hin as [-> | Hin]; [now left | now right; right].
    + intros x Hx. right; right. now apply Hincl.
  - intros H. injection H as <- <- <-.
    exists S, T. repeat split; auto.
    + lia.
    + apply incl_refl.
Qed.

(** After [n] low samples and the rising edge, the first wait leaves the
    rest of the echo script to the second. *)
Lemma wait_low_then_edge timeout n rest : forall ticks stamp s echo' ticks',
  wait_while false timeout stamp (repeat false n ++ true :: rest) ticks =
    Some (Edge s echo' ticks') ->
  echo' = rest.
Proof.
  induction n as [| n IH]; intros ticks stamp s echo' ticks'; simpl.
  - intros H. now injection H.
  - destruct ticks as [| now1 [| now2 ticks]]; try discriminate.
    destruct (ticks_diff now2 timeout >? 0); [discriminate|]. apply IH.
Qed.

(** X3: the nearby property that does hold.  Let the clock never run
    backwards and cover less than [2 ^ 29] us over the call, and let the
    pin read low [n] times, then high at least twice (the edge, and one
    sample of the second wait).  Then whatever [measure_distance] returns
    is non-negative. *)
Theorem fall_sampled_distance_nonneg (n : nat) (rest : list bool)
    (T0 : Z) (T : list Z) (d : Q) :
  StronglySorted Z.le (T0 :: T) ->
  Forall (fun t => t - T0 < 2 ^ 29) T ->
  measure_distance (repeat false n ++ true :: true :: rest)
                   (map wrap (T0 :: T)) = Some d ->
  (0 <= d)%Q.
Proof.
  intros Hsorted Hspan. unfold measure_distance. simpl map. cbv iota beta.
  rewrite wait_echo_high_shape.
  destruct (wait_while false _ _ _ _) as [[| ps e1 t1] |] eqn:H1;
    [intros H; injection H as <-; discriminate | | discriminate].
  pose proof (wait_low_then_edge _ _ _ _ _ _ _ _ H1) as ->.
  destruct (wait_while_stamp _ _ _ _ _ _ _ _ Hsorted H1)
    as (PS & T1 & -> & -> & Hs1 & HlePS & _ & Hincl1).
  rewrite wait_echo_low_shape. simpl.
  destruct T1 as [| A [| B T1]]; simpl; try discriminate.
  destruct (ticks_diff (wrap B) _ >? 0);
    [intros H; injection H as <-; discriminate|].
  destruct (wait_while true _ _ _ _) as [[| pe e2 t2] |] eqn:H2;
    [intros H; injection H as <-; discriminate | | discriminate].
  inversion Hs1 as [| ? ? Htail Hhead]; subst.
  inversion Htail as [| ? ? Htail' Hhead']; subst.
  inversion Htail' as [| ? ? Htail'' Hhead'']; subst.
  inversion Hhead as [| ? ? HPSA _]; subst.
  inversion Hhead' as [| ? ? _ HA]; subst.
  destruct (wait_while_stamp _ _ _ _ _ _ _ _ (SSorted_cons A Htail'' HA) H2)
    as (PE & T2 & -> & _ & _ & HlePE & Hin & _).
  assert (HinT : In PE T).
  { apply Hincl1. destruct Hin as [-> | Hin]; [now left | now right; right]. }
  rewrite Forall_forall in Hspan. specialize (Hspan PE HinT).
  intros H; injection H as <-.
  rewrite ticks_diff_wrap by lia.
  apply distance_of_pulse_nonneg. lia.
Qed.

(** The same, at a script: the pin reads low, high, high, low while the
    clock wraps around between the second and the third reading. *)
Lemma fall_sampled_distance_nonneg_witness :
  measure_distance [false; true; true; false]
    (map wrap [2 ^ 30 - 30; 2 ^ 30 - 20; 2 ^ 30 - 15; 2 ^ 30 + 470; 2 ^ 30 + 480])
    = Some (distance_of_pulse 490) /\
  (0 <= distance_of_pulse 490)%Q.
Proof.
  split; [reflexivity|].
  apply (fall_sampled_distance_nonneg 1 [false] (2 ^ 30 - 30)
           [2 ^ 30 - 20; 2 ^ 30 - 15; 2 ^ 30 + 470; 2 ^ 30 + 480]).
  - repeat constructor; lia.
  - repeat constructor.
  - reflexivity.
Defined.

(** ** Monitor loop *)

Lemma pauses_app (o1 o2 : list event) :
  pauses (o1 ++ o2) = pauses o1 ++ pauses o2.
Proof.
  induction o1 as [| ev o1 IH]; [reflexivity|].
  destruct ev; simpl; now rewrite IH.
Qed.

(** [update_bin_status] never sleeps. *)
Lemma pauses_update cfg w self d :
  pauses (out (update_bin_status cfg w self d)) = [].
Proof.
  unfold update_bin_status.
  destruct (Qgtb d (inject_Z (EMPTY cfg))); [reflexivity|].
  destruct (Qgtb d (inject_Z (HALF_FULL cfg))); [reflexivity|].
  destruct (should_send_email _ _ _); [|reflexivity].
  destruct (post_outcome w) as [c | e | e]; simpl; [|reflexivity..].
  destruct (c =? 201); reflexivity.
Qed.

Lemma try_body_ready cfg c self :
  sensor_ready c -> exists s, try_body cfg c self = Some s.
Proof.
  unfold sensor_ready, try_body.
  destruct (sensing c) as [[echo ticks] | e]; [|eauto].
  destruct (measure_distance echo ticks) as [d |]; [|congruence].
  intros _. destruct (ret (update_bin_status cfg (outside c) self d)); eauto.
Qed.

(** One pass through the loop ends with exactly one pause: the interval
    of 10 when the body returned, the recovery pause of 5 when it raised. *)
Lemma one_pause_per_cycle cfg c self s :
  try_body cfg c self = Some s ->
  pauses (out s ++ handler (ret s)) =
  [match ret s with Returns _ => 10 | Raises _ => 5 end].
Proof.
  unfold try_body.
  destruct (sensing c) as [[echo ticks] | e].
  - destruct (measure_distance echo ticks) as [d |]; [|discriminate].
    pose proof (pauses_update cfg (outside c) self d) as Hquiet.
    destruct (ret (update_bin_status cfg (outside c) self d)) as [[] | e];
      intros H; injection H as <-; simpl; rewrite ?pauses_app, Hquiet;
      reflexivity.
  - intros H; injection H as <-. reflexivity.
Qed.

(** The loop after one more cycle: what it did before, then that cycle
    from the state reached. *)
Lemma monitor_loop_snoc cfg c : forall cycles self,
  monitor_loop cfg (cycles ++ [c]) self =
  match monitor_loop cfg cycles self with
  | None => None
  | Some (m, o) =>
      match try_body cfg c m with
      | None => None
      | Some s => Some (after s, o ++ out s ++ handler (ret s))
      end
  end.
Proof.
  induction cycles as [| c0 cycles IH]; intros self; simpl.
  - destruct (try_body cfg c self) as [s |]; [|reflexivity].
    now rewrite app_nil_r.
  - destruct (try_body cfg c0 self) as [s0 |]; [|reflexivity].
    rewrite IH.
    destruct (monitor_loop cfg cycles (after s0)) as [[m o] |]; [|reflexivity].
    destruct (try_body cfg c m) as [s |]; [|reflexivity].
    now rewrite <- !app_assoc.
Qed.

(** Every supplied cycle is run: the loop never stops early. *)
Lemma monitor_loop_runs_all cfg : forall cycles self,
  Forall sensor_ready cycles ->
  exists self' o,
    monitor_loop cfg cycles self = Some (self', o) /\
    List.length (pauses o) = List.length cycles /\
    Forall (fun p => p = 5 \/ p = 10) (pauses o).
Proof.
  induction cycles as [| c cycles IH]; intros self Hready.
  - exists self, []. repeat split. constructor.
  - inversion Hready as [| x l Hc Hrest]; subst.
    destruct (try_body_ready cfg c self Hc) as [s Hs].
    destruct (IH (after s) Hrest) as (self' & o & Hloop & Hlen & Hall).
    exists self', (out s ++ handler (ret s) ++ o).
    simpl. rewrite Hs, Hloop. split; [reflexivity|].
    rewrite app_assoc, pauses_app, (one_pause_per_cycle cfg c self s Hs).
    simpl. split; [now rewrite Hlen|].
    constructor; [|exact Hall].
    destruct (ret s); auto.
Qed.

(** C9: the loop survives every fault.  [run] returns only when
    [connect_wifi] returns [False], and then before any cycle is run.
    Once [connect_wifi] has returned [True], [run] is still inside the
    loop after any number of cycles, whatever was raised in them: every
    cycle ends in exactly one pause, and a further cycle is always taken
    up from the state reached, ending in the pause of 10 if its body
    returned and in the error line and the pause of 5 if it raised. *)
Theorem run_leaves_loop_never (cfg : config) (polls : list bool)
    (clock : list Z) (cycles : list cycle) (self : WasteBinMonitor) :
  Forall sensor_ready cycles ->
  (connect_wifi polls clock = Some false ->
   run cfg polls clock cycles self = Some (Returned, self, [])) /\
  (connect_wifi polls clock = Some true ->
   exists self' o,
     run cfg polls clock cycles self =
       Some (Looping, self', Print "Monitoring started..." :: o) /\
     List.length (pauses o) = List.length cycles /\
     Forall (fun p => p = 5 \/ p = 10) (pauses o) /\
     forall c, sensor_ready c ->
       exists s,
         try_body cfg c self' = Some s /\
         run cfg polls clock (cycles ++ [c]) self =
           Some (Looping, after s,
                 Print "Monitoring started..." :: o ++ out s ++ handler (ret s)) /\
         (ret s = Returns tt ->
          handler (ret s) = [] /\ pauses (out s ++ handler (ret s)) = [10]) /\
         (forall e, ret s = Raises e ->
          handler (ret s) = [PrintError e; Sleep 5] /\
          pauses (out s ++ handler (ret s)) = [5])) /\
  (forall self' o,
     run cfg polls clock cycles self = Some (Returned, self', o) ->
     connect_wifi polls clock = Some false).
Proof.
  intros Hready. unfold run. split; [|split].
  - intros ->. reflexivity.
  - intros ->.
    destruct (monitor_loop_runs_all cfg cycles self Hready)
      as (self' & o & Hloop & Hlen & Hall).
    exists self', o. rewrite Hloop.
    split; [reflexivity | split; [exact Hlen | split; [exact Hall|]]].
    intros c Hc.
    destruct (try_body_ready cfg c self' Hc) as [s Hs].
    exists s. split; [exact Hs|].
    rewrite monitor_loop_snoc, Hloop, Hs.
    split; [reflexivity|].
    pose proof (one_pause_per_cycle cfg c self' s Hs) as Hpause.
    split.
    + intros Hret. rewrite Hret in *. split; [reflexivity | exact Hpause].
    + intros e Hret. rewrite Hret in *. split; [reflexivity | exact Hpause].
  - intros self' o.
    destruct (connect_wifi polls clock) as [[|] |]; [|reflexivity|discriminate].
    destruct (monitor_loop cfg cycles self) as [[m o'] |]; discriminate.
Qed.

Lemma demo_cycles_ready : Forall sensor_ready demo_cycles.
Proof.
  repeat constructor; unfold sensor_ready; simpl; discriminate.
Qed.

(** C9, instance: the link comes up at the second poll; of three cycles
    the first raises in the measurement and the second while the alert is
    built.  [run] is inside the loop after them, and a fourth cycle, whose
    measurement raises again, is taken up and ends in the recovery pause. *)
Lemma run_leaves_loop_never_witness :
  exists self' o,
    run CONFIG demo_polls demo_clock demo_cycles __init__ =
      Some (Looping, self', Print "Monitoring started..." :: o) /\
    List.length (pauses o) = 3%nat /\
    exists s,
      run CONFIG demo_polls demo_clock
          (demo_cycles ++ [mkCycle (Raises (Exception "sensor"))
                                   (mkWorld 20 (Responds 201) 20)]) __init__ =
        Some (Looping, after s,
              Print "Monitoring started..." :: o ++ out s ++ handler (ret s)) /\
      pauses (out s ++ handler (ret s)) = [5].
Proof.
  destruct (run_leaves_loop_never CONFIG demo_polls demo_clock demo_cycles
              __init__ demo_cycles_ready) as (_ & Hloop & _).
  destruct (Hloop eq_refl) as (self' & o & Hrun & Hlen & _ & Hnext).
  exists self', o. split; [exact Hrun | split; [exact Hlen|]].
  destruct (Hnext (mkCycle (Raises (Exception "sensor"))
                           (mkWorld 20 (Responds 201) 20)) I)
    as (s & Hs & Hrun' & _ & Hraised).
  exists s. split; [exact Hrun'|].
  injection Hs as <-. reflexivity.
Defined.

(** The three demo cycles, evaluated: the pauses are 5, 5 and 10, the
    alert is sent once, and the monitor ends up full and disarmed. *)
Example run_demo :
  option_map (fun r => (fst (fst r), snd (fst r), pauses (snd r)))
             (run CONFIG demo_polls demo_clock demo_cycles __init__) =
  Some (Looping,
        {| green_led := false; yellow_led := false; red_led := true;
           last_email_time := 13; is_currently_full := true;
           first_full_detection := false |},
        [5; 5; 10]).
Proof. vm_compute. reflexivity. Qed.

(** When the link never comes up within ten seconds, no cycle is run. *)
Example run_without_wifi :
  run CONFIG [false; false] [0; 5; 11] demo_cycles __init__ =
  Some (Returned, __init__, []).
Proof. reflexivity. Qed.

(** The end-to-end scenario of the specification: readings 50, 25, 8, 8, 8
    at times 0, 1, 2, 3, 302 show EMPTY, PARTIAL, FULL, FULL, FULL and
    alert at the third and fifth reading only. *)
Example end_to_end_scenario :
  let w t := mkWorld t (Responds 201) t in
  let s1 := update_bin_status CONFIG (w 0) __init__ 50 in
  let s2 := update_bin_status CONFIG (w 1) (after s1) 25 in
  let s3 := update_bin_status CONFIG (w 2) (after s2) 8 in
  let s4 := update_bin_status CONFIG (w 3) (after s3) 8 in
  let s5 := update_bin_status CONFIG (w 302) (after s4) 8 in
  map (fun s => indicated (after s)) [s1; s2; s3; s4; s5] =
    [Some EMPTY_BIN; Some PARTIAL_BIN; Some FULL_BIN; Some FULL_BIN;
     Some FULL_BIN] /\
  map (fun s => List.length (out s)) [s1; s2; s3; s4; s5] =
    [1; 1; 4; 1; 4]%nat /\
  map (fun s => last_email_time (after s)) [s1; s2; s3; s4; s5] =
    [0; 0; 2; 2; 302].
Proof. vm_compute. repeat split. Qed.

(** * Further properties of the code *)

(** ** [connect_wifi] *)

Lemma wifi_wait_false (start : Z) : forall polls clock,
  wifi_wait start polls clock = Some false <->
  exists k : nat,
    (forall i, (i <= k)%nat -> nth_error polls i = Some false) /\
    (forall i, (i < k)%nat ->
       exists now, nth_error clock i = Some now /\ now - start <= 10) /\
    (exists now, nth_error clock k = Some now /\ now - start > 10).
Proof.
  induction polls as [| [|] polls IH]; intros clock; simpl.
  - split; [discriminate|]. intros (k & Hp & _).
    specialize (Hp 0%nat (Nat.le_0_l k)). discriminate Hp.
  - split; [discriminate|]. intros (k & Hp & _).
    specialize (Hp 0%nat (Nat.le_0_l k)). discriminate Hp.
  - destruct clock as [| now clock].
    + split; [discriminate|]. intros (k & _ & _ & t & Ht & _).
      destruct k; discriminate Ht.
    + destruct (Z.gtb_spec (now - start) 10) as [Hlate | Hearly].
      * split; [intros _ | reflexivity].
        exists 0%nat. split; [|split].
        -- intros i Hi. replace i with 0%nat by lia. reflexivity.
        -- intros i Hi. lia.
        -- exists now. split; [reflexivity | lia].
      * rewrite IH. split.
        -- intros (k & Hp & Hc & t & Ht & Hlate).
           exists (S k). split; [|split].
           ++ intros [| i] Hi; [reflexivity|]. apply Hp. lia.
           ++ intros [| i] Hi; [now exists now|]. apply Hc. lia.
           ++ now exists t.
        -- intros (k & Hp & Hc & t & Ht & Hlate).
           destruct k as [| k].
           ++ simpl in Ht. injection Ht as ->. lia.
           ++ exists k. split; [|split].
              ** intros i Hi. apply (Hp (S i)). lia.
              ** intros i Hi. apply (Hc (S i)). lia.
              ** now exists t.
Qed.

Lemma wifi_wait_true (start : Z) : forall polls clock,
  wifi_wait start polls clock = Some true <->
  exists k : nat,
    nth_error polls k = Some true /\
    (forall i, (i < k)%nat -> nth_error polls i = Some false) /\
    (forall i, (i < k)%nat ->
       exists now, nth_error clock i = Some now /\ now - start <= 10).
Proof.
  induction polls as [| [|] polls IH]; intros clock; simpl.
  - split; [discriminate|]. intros (k & Hp & _).
    destruct k; discriminate Hp.
  - split; [intros _ | reflexivity].
    exists 0%nat. split; [reflexivity|]. split; intros i Hi; lia.
  - assert (Hk : forall k, nth_error (false :: polls) k = Some true ->
                           exists k', k = S k') by
      (intros [| k'] H; [discriminate H | now exists k']).
    destruct clock as [| now clock].
    + split; [discriminate|]. intros (k & Hp & _ & Hc).
      destruct (Hk k Hp) as [k' ->].
      destruct (Hc 0%nat) as (t & Ht & _); [lia | discriminate Ht].
    + destruct (Z.gtb_spec (now - start) 10) as [Hlate | Hearly].
      * split; [discriminate|]. intros (k & Hp & _ & Hc).
        destruct (Hk k Hp) as [k' ->].
        destruct (Hc 0%nat) as (t & Ht & Hle); [lia|].
        simpl in Ht. injection Ht as ->. lia.
      * rewrite IH. split.
        -- intros (k & Hp & Hf & Hc).
           exists (S k). split; [exact Hp | split].
           ++ intros [| i] Hi; [reflexivity|]. apply Hf. lia.
           ++ intros [| i] Hi; [now exists now|]. apply Hc. lia.
        -- intros (k & Hp & Hf & Hc).
           destruct (Hk k Hp) as [k' ->].
           exists k'. split; [exact Hp | split].
           ++ intros i Hi. apply (Hf (S i)). lia.
           ++ intros i Hi. apply (Hc (S i)). lia.
Qed.

(** X1: [connect_wifi] gives up exactly when every poll so far was
    negative and the clock, read after a negative poll, shows more than 10
    seconds since the start for the first time; a reading of exactly 10
    seconds does not give up. *)
Theorem connect_wifi_gives_up (polls : list bool) (start_time : Z)
    (clock : list Z) :
  connect_wifi polls (start_time :: clock) = Some false <->
  exists k : nat,
    (forall i, (i <= k)%nat -> nth_error polls i = Some false) /\
    (forall i, (i < k)%nat ->
       exists now, nth_error clock i = Some now /\ now - start_time <= 10) /\
    (exists now, nth_error clock k = Some now /\ now - start_time > 10).
Proof. apply wifi_wait_false. Qed.

(** X2: [connect_wifi] returns [True] exactly when a poll finds the link
    up and, before it, every poll was negative and every clock reading
    within 10 seconds of the start; a link that is up at the first poll
    needs no clock reading beyond the start time. *)
Theorem connect_wifi_succeeds (polls : list bool) (start_time : Z)
    (clock : list Z) :
  connect_wifi polls (start_time :: clock) = Some true <->
  exists k : nat,
    nth_error polls k = Some true /\
    (forall i, (i < k)%nat -> nth_error polls i = Some false) /\
    (forall i, (i < k)%nat ->
       exists now, nth_error clock i = Some now /\ now - start_time <= 10).
Proof. apply wifi_wait_true. Qed.

(** The boundary: the link comes up after a reading of exactly 10 s. *)
Example connect_wifi_at_ten_seconds :
  connect_wifi [false; false; true] [100; 105; 110] = Some true /\
  connect_wifi [false; false; true] [100; 105; 111] = Some false /\
  connect_wifi [true] [100] = Some true.
Proof. repeat split. Qed.

(** ** [measure_distance] on a clock that wraps *)

Lemma deadline_wrap (T0 : Z) :
  ticks_add (wrap T0) 30000 = wrap (T0 + 30000).
Proof. unfold ticks_add, wrap. apply Zplus_mod_idemp_l. Qed.

(** The deadline check compares true elapsed time with 30000 us, wherever
    the tick counter wraps. *)
Lemma deadline_check (T0 t : Z) :
  in_window T0 t ->
  (ticks_diff (wrap t) (ticks_add (wrap T0) 30000) >? 0) = (t - T0 >? 30000).
Proof.
  intros [Hlo Hhi]. rewrite deadline_wrap, ticks_diff_wrap by lia.
  destruct (Z.gtb_spec (t - (T0 + 30000)) 0), (Z.gtb_spec (t - T0) 30000);
    lia || reflexivity.
Qed.

Lemma distance_of_pulse_le (p q : Z) :
  p <= q -> (distance_of_pulse p <= distance_of_pulse q)%Q.
Proof.
  intros H. unfold distance_of_pulse, Qle, Qdiv, Qmult, Qinv. simpl. lia.
Qed.

(** A wait hands on a stamp taken inside the 30000 us window, and leaves
    the later readings. *)
Lemma wait_while_window level T0 : forall echo T S stamp echo' ticks',
  StronglySorted Z.le (S :: T) ->
  Forall (in_window T0) T ->
  T0 <= S <= T0 + 30000 ->
  wait_while level (ticks_add (wrap T0) 30000) (wrap S) echo (map wrap T) =
    Some (Edge stamp echo' ticks') ->
  exists S' T',
    stamp = wrap S' /\ ticks' = map wrap T' /\
    StronglySorted Z.le (S' :: T') /\ Forall (in_window T0) T' /\
    T0 <= S' <= T0 + 30000.
Proof.
  induction echo as [| b echo IH]; intros T S stamp echo' ticks' Hsorted Hwin HS;
    simpl; [discriminate|].
  destruct (Bool.eqb b level).
  - destruct T as [| A [| B T]]; simpl; try discriminate.
    inversion Hwin as [| ? ? HA Hwin']; subst.
    inversion Hwin' as [| ? ? HB Hwin'']; subst.
    rewrite (deadline_check T0 B HB).
    destruct (Z.gtb_spec (B - T0) 30000) as [Hpast | Hnot]; [discriminate|].
    intros Hwait.
    inversion Hsorted as [| ? ? Htail Hhead]; subst.
    inversion Htail as [| ? ? Htail' Hhead']; subst.
    inversion Htail' as [| ? ? Htail'' Hhead'']; subst.
    inversion Hhead' as [| ? ? HAB HAfter]; subst.
    destruct HA as [HA0 _].
    apply (IH T A stamp echo' ticks' (SSorted_cons A Htail'' HAfter) Hwin'');
      [lia | exact Hwait].
  - intros H. injection H as <- <- <-.
    exists S, T. repeat split; auto; lia.
Qed.

(** X4: whatever [measure_distance] returns on a clock that never runs
    backwards and covers less than [2 ^ 29] us, wrapping or not, lies
    between the distances of a pulse of -30000 us and of 30000 us, about
    515.5 on either side: both stamps are taken inside the deadline
    window. *)
Theorem measured_distance_bounded (echo : list bool) (T0 : Z) (T : list Z)
    (d : Q) :
  StronglySorted Z.le (T0 :: T) ->
  Forall (fun t => t - T0 < 2 ^ 29) T ->
  measure_distance echo (map wrap (T0 :: T)) = Some d ->
  (distance_of_pulse (-30000) <= d)%Q /\ (d <= distance_of_pulse 30000)%Q /\
  (-516 < d)%Q /\ (d < 516)%Q.
Proof.
  intros Hsorted Hspan Hd.
  assert (Hbounds : (distance_of_pulse (-30000) <= d)%Q /\
                    (d <= distance_of_pulse 30000)%Q).
  { assert (Hwin : Forall (in_window T0) T).
    { inversion Hsorted as [| ? ? _ Hhead]; subst.
      rewrite Forall_forall in *. intros t Ht. split; auto. }
    revert Hd. unfold measure_distance. simpl map. cbv iota beta.
    rewrite wait_echo_high_shape.
    destruct (wait_while false _ _ _ _) as [[| ps e1 t1] |] eqn:H1;
      [intros H; injection H as <-; split; discriminate | | discriminate].
    destruct (wait_while_window _ _ _ _ _ _ _ _ Hsorted Hwin
                ltac:(lia) H1)
      as (PS & T1 & -> & -> & Hs1 & Hwin1 & HPS).
    assert (Hs0 : StronglySorted Z.le (T0 :: T1)).
    { inversion Hs1; subst. constructor; [assumption|].
      rewrite Forall_forall in *. intros t Ht. now apply Hwin1. }
    rewrite wait_echo_low_shape.
    destruct (wait_while true _ _ _ _) as [[| pe e2 t2] |] eqn:H2;
      [intros H; injection H as <-; split; discriminate | | discriminate].
    destruct (wait_while_window _ _ _ _ _ _ _ _ Hs0 Hwin1 ltac:(lia) H2)
      as (PE & T2 & -> & _ & _ & _ & HPE).
    intros H; injection H as <-.
    assert (Hpow : 2 ^ 29 = 536870912) by reflexivity.
    rewrite ticks_diff_wrap by lia.
    split; apply distance_of_pulse_le; lia. }
  destruct Hbounds as [Hlo Hhi]. repeat split; try assumption.
  - eapply Qlt_le_trans; [|exact Hlo]. reflexivity.
  - eapply Qle_lt_trans; [exact Hhi|]. reflexivity.
Qed.

(** X4, instance: the short pulse that reads negative, and the script
    whose clock wraps. *)
Lemma measured_distance_bounded_witness :
  (-516 < distance_of_pulse (-10))%Q /\ (distance_of_pulse 490 < 516)%Q.
Proof.
  split.
  - apply (measured_distance_bounded [false; true; false] 1000 [1010; 1015]).
    + repeat constructor; lia.
    + repeat constructor.
    + reflexivity.
  - apply (measured_distance_bounded [false; true; true; false] (2 ^ 30 - 30)
             [2 ^ 30 - 20; 2 ^ 30 - 15; 2 ^ 30 + 470; 2 ^ 30 + 480]).
    + repeat constructor; lia.
    + repeat constructor.
    + reflexivity.
Defined.

Lemma wait_while_stuck level T0 : forall n T stamp k late,
  Forall (in_window T0) T ->
  (k < n)%nat ->
  nth_error T (2 * k + 1) = Some late ->
  late - T0 > 30000 ->
  wait_while level (ticks_add (wrap T0) 30000) stamp (repeat level n)
             (map wrap T) = Some Expired.
Proof.
  induction n as [| n IH]; intros T stamp k late Hwin Hk Hnth Hlate; [lia|].
  simpl. rewrite Bool.eqb_reflx.
  destruct T as [| A [| B T]].
  - destruct (2 * k + 1)%nat; discriminate Hnth.
  - destruct k as [| k]; [discriminate Hnth|].
    rewrite odd_position in Hnth. discriminate Hnth.
  - simpl. inversion Hwin as [| ? ? HA Hwin']; subst.
    inversion Hwin' as [| ? ? HB Hwin'']; subst.
    rewrite (deadline_check T0 B HB).
    destruct (Z.gtb_spec (B - T0) 30000) as [Hpast | Hnot]; [reflexivity|].
    destruct k as [| k].
    + simpl in Hnth. injection Hnth as ->. lia.
    + rewrite odd_position in Hnth.
      apply (IH T (wrap A) k late Hwin''); [lia | exact Hnth | exact Hlate].
Qed.

(** X5: a pin that never changes times out.  If the echo pin reads low on
    every sample, or high on every sample, and one of the first [n]
    deadline checks reads the clock more than 30000 us after the start,
    [measure_distance] returns 100, wherever the tick counter wraps in
    between. *)
Theorem stuck_pin_times_out (n k : nat) (T0 late : Z) (T : list Z) :
  Forall (in_window T0) T ->
  (k < n)%nat ->
  nth_error T (2 * k + 1) = Some late ->
  late - T0 > 30000 ->
  measure_distance (repeat false n) (map wrap (T0 :: T)) = Some 100%Q /\
  measure_distance (true :: repeat true n) (map wrap (T0 :: T)) = Some 100%Q.
Proof.
  intros Hwin Hk Hnth Hlate. unfold measure_distance. simpl map.
  cbv iota beta. split.
  - rewrite wait_echo_high_shape.
    now rewrite (wait_while_stuck false T0 n T (wrap T0) k late).
  - simpl wait_echo_high. cbv iota beta. rewrite wait_echo_low_shape.
    now rewrite (wait_while_stuck true T0 n T (wrap T0) k late).
Qed.

(** X5, instance: the tick counter wraps 20 us after the start and the
    second check comes 30001 us after it. *)
Lemma stuck_pin_times_out_witness :
  measure_distance [false; false]
    (map wrap [2 ^ 30 - 20; 2 ^ 30 - 10; 2 ^ 30; 2 ^ 30 + 29000;
               2 ^ 30 + 29981]) = Some 100%Q /\
  measure_distance [true; true; true]
    (map wrap [2 ^ 30 - 20; 2 ^ 30 - 10; 2 ^ 30; 2 ^ 30 + 29000;
               2 ^ 30 + 29981]) = Some 100%Q.
Proof.
  apply (stuck_pin_times_out 2 1 (2 ^ 30 - 20) (2 ^ 30 + 29981)
           [2 ^ 30 - 10; 2 ^ 30; 2 ^ 30 + 29000; 2 ^ 30 + 29981]).
  - repeat constructor; lia.
  - lia.
  - reflexivity.
  - lia.
Defined.

(** ** From pulse width to indicator *)

(** X6: with the configured thresholds, a pulse of more than 1746 us shows
    EMPTY, one of more than 582 us and up to 1746 us shows PARTIAL, and
    one of up to 582 us (negative widths included) shows FULL. *)
Theorem pulse_width_classes (w : world) (self : WasteBinMonitor) (p : Z) :
  (1746 < p ->
   level_shown CONFIG w self (distance_of_pulse p) = Some EMPTY_BIN) /\
  (582 < p <= 1746 ->
   level_shown CONFIG w self (distance_of_pulse p) = Some PARTIAL_BIN) /\
  (p <= 582 ->
   level_shown CONFIG w self (distance_of_pulse p) = Some FULL_BIN).
Proof.
  assert (E : 1746 < p <-> (inject_Z (EMPTY CONFIG) < distance_of_pulse p)%Q).
  { unfold distance_of_pulse, Qlt, Qdiv, Qmult, Qinv. simpl. lia. }
  assert (P : 582 < p <->
              (inject_Z (HALF_FULL CONFIG) < distance_of_pulse p)%Q).
  { unfold distance_of_pulse, Qlt, Qdiv, Qmult, Qinv. simpl. lia. }
  split; [|split].
  - intros H. apply shown_empty. now apply E.
  - intros [H1 H2]. apply shown_partial; [|now apply P].
    apply Qnot_lt_le. rewrite <- E. lia.
  - intros H. apply shown_full. split; apply Qnot_lt_le.
    + rewrite <- E. lia.
    + rewrite <- P. lia.
Qed.

(** X6, instances: pulses of 1747, 1746, 583 and 582 us. *)
Lemma pulse_width_classes_witness :
  level_shown CONFIG (mkWorld 0 (Responds 201) 0) __init__
              (distance_of_pulse 1747) = Some EMPTY_BIN /\
  level_shown CONFIG (mkWorld 0 (Responds 201) 0) __init__
              (distance_of_pulse 1746) = Some PARTIAL_BIN /\
  level_shown CONFIG (mkWorld 0 (Responds 201) 0) __init__
              (distance_of_pulse 583) = Some PARTIAL_BIN /\
  level_shown CONFIG (mkWorld 0 (Responds 201) 0) __init__
              (distance_of_pulse 582) = Some FULL_BIN.
Proof.
  split; [|split; [|split]].
  - destruct (pulse_width_classes (mkWorld 0 (Responds 201) 0) __init__ 1747)
      as (H & _). apply H. lia.
  - destruct (pulse_width_classes (mkWorld 0 (Responds 201) 0) __init__ 1746)
      as (_ & H & _). apply H. lia.
  - destruct (pulse_width_classes (mkWorld 0 (Responds 201) 0) __init__ 583)
      as (_ & H & _). apply H. lia.
  - destruct (pulse_width_classes (mkWorld 0 (Responds 201) 0) __init__ 582)
      as (_ & _ & H). apply H. lia.
Defined.

(** ** The session state across calls of [update_bin_status] *)

Lemma count_alerts_app (o1 o2 : list event) :
  count_alerts (o1 ++ o2) = (count_alerts o1 + count_alerts o2)%nat.
Proof. unfold count_alerts. now rewrite filter_app, length_app. Qed.

Lemma count_alerts_full cfg w self d :
  reads_full cfg d ->
  count_alerts (out (update_bin_status cfg w self d)) =
  if should_send_email cfg (time_at_decision w) self then 1%nat else 0%nat.
Proof.
  intros F. rewrite (update_full cfg w self d F).
  destruct (should_send_email cfg (time_at_decision w) self); [|reflexivity].
  destruct (post_outcome w) as [c | e | e]; simpl; [|reflexivity..].
  destruct (c =? 201); reflexivity.
Qed.

Lemma flag_after_update cfg w self d :
  let m := after (update_bin_status cfg w self d) in
  (is_currently_full m = true <-> reads_full cfg d) /\
  red_led m = is_currently_full m.
Proof.
  intros m. subst m.
  destruct (reads_full_or_not cfg d) as [F | N].
  - pose proof (full_sets_flag cfg w self d F) as Hflag.
    destruct (update_full_leds cfg w self d F) as (_ & _ & Hred).
    rewrite Hflag, Hred. split; [tauto | reflexivity].
  - assert (Hnf : ~ reads_full cfg d).
    { intros [F1 F2]. destruct N as [N | N].
      - apply (Qlt_not_le _ _ N F1).
      - apply (Qlt_not_le _ _ N F2). }
    assert (Hboth : is_currently_full (after (update_bin_status cfg w self d))
                    = false /\
                    red_led (after (update_bin_status cfg w self d)) = false).
    { destruct (not_full_cases cfg d N) as [E | [E P]];
        [rewrite (update_empty cfg w self d E)
        | rewrite (update_partial cfg w self d E P)];
        simpl; destruct (is_currently_full self) eqn:Hf; simpl;
        rewrite ?Hf; split; reflexivity. }
    destruct Hboth as [-> ->]. split; [|reflexivity].
    split; [discriminate | intros F; destruct (Hnf F)].
Qed.

(** X7: after every call the full flag tells whether the reading was
    FULL, and the red LED shows the same. *)
Theorem flag_tracks_reading (cfg : config) (w : world)
    (self : WasteBinMonitor) (d : Q) :
  let m := after (update_bin_status cfg w self d) in
  (is_currently_full m = true <-> reads_full cfg d) /\
  red_led m = is_currently_full m.
Proof. exact (flag_after_update cfg w self d). Qed.

(** X8: a reading other than FULL is silent: the call returns normally
    whatever the transport would do, issues no alert and leaves
    [last_email_time] alone. *)
Theorem not_full_is_silent (cfg : config) (w : world)
    (self : WasteBinMonitor) (d : Q) :
  reads_not_full cfg d ->
  ret (update_bin_status cfg w self d) = Returns tt /\
  count_alerts (out (update_bin_status cfg w self d)) = 0%nat /\
  last_email_time (after (update_bin_status cfg w self d)) =
    last_email_time self.
Proof.
  intros N.
  destruct (not_full_cases cfg d N) as [E | [E P]];
    [rewrite (update_empty cfg w self d E)
    | rewrite (update_partial cfg w self d E P)];
    simpl; destruct (is_currently_full self); repeat split.
Qed.

(** X8, instance: a reading of 25 on a full monitor with a transport that
    would raise. *)
Lemma not_full_is_silent_witness :
  let s := update_bin_status CONFIG
             (mkWorld 5 (BuildRaises (Exception "memory")) 5)
             (marked_full __init__) 25 in
  ret s = Returns tt /\ count_alerts (out s) = 0%nat /\
  last_email_time (after s) = 0.
Proof.
  apply (not_full_is_silent CONFIG
           (mkWorld 5 (BuildRaises (Exception "memory")) 5)
           (marked_full __init__) 25).
  right. reflexivity.
Defined.

Lemma lit_after_update cfg w self d :
  lit (after (update_bin_status cfg w self d)) = 1%nat.
Proof.
  unfold lit.
  destruct (reads_full_or_not cfg d) as [F | N].
  - destruct (update_full_leds cfg w self d F) as (-> & -> & ->).
    reflexivity.
  - destruct (not_full_cases cfg d N) as [E | [E P]].
    + destruct (update_empty_leds cfg w self d E) as (-> & -> & ->).
      reflexivity.
    + destruct (update_partial_leds cfg w self d E P) as (-> & -> & ->).
      reflexivity.
Qed.

Lemma update_coherent cfg w self d :
  coherent self -> coherent (after (update_bin_status cfg w self d)).
Proof.
  intros (_ & _ & Harm).
  destruct (flag_after_update cfg w self d) as (Hflag & Hred).
  split; [rewrite lit_after_update; auto | split; [exact Hred|]].
  destruct (reads_full_or_not cfg d) as [F | N].
  - intros _. now apply Hflag.
  - intros Hfirst. exfalso.
    destruct (is_currently_full self) eqn:Hf.
    + destruct (not_full_rearms cfg w self d N Hf) as [_ H]. congruence.
    + assert (H0 : first_full_detection self = true).
      { destruct (first_full_detection self); [reflexivity|].
        specialize (Harm eq_refl). discriminate Harm. }
      pose proof (not_full_keeps_armed cfg w self d N H0). congruence.
Qed.

(** X9: on a coherent monitor a reading other than FULL always leaves the
    full flag cleared and the first-detection flag set, although the code
    resets them only when the full flag was set. *)
Theorem not_full_arms (cfg : config) (w : world)
    (self : WasteBinMonitor) (d : Q) :
  coherent self ->
  reads_not_full cfg d ->
  is_currently_full (after (update_bin_status cfg w self d)) = false /\
  first_full_detection (after (update_bin_status cfg w self d)) = true.
Proof.
  intros Hco N.
  pose proof (update_coherent cfg w self d Hco) as (_ & _ & Harm).
  destruct (flag_after_update cfg w self d) as (Hflag & _).
  assert (Hoff : is_currently_full (after (update_bin_status cfg w self d))
                 = false).
  { destruct (is_currently_full _) eqn:Hf; [|reflexivity].
    destruct (proj1 Hflag eq_refl) as [F1 F2]. exfalso.
    destruct N as [N | N]; [apply (Qlt_not_le _ _ N F1)
                           | apply (Qlt_not_le _ _ N F2)]. }
  split; [exact Hoff|].
  destruct (first_full_detection _); [reflexivity|].
  specialize (Harm eq_refl). congruence.
Qed.

(** X9, instance: the fresh monitor, and why coherence is needed: with
    the first-detection flag cleared and the full flag not set, the same
    reading leaves the monitor disarmed. *)
Lemma not_full_arms_witness :
  first_full_detection
    (after (update_bin_status CONFIG (mkWorld 0 (Responds 201) 0)
              __init__ 50)) = true /\
  first_full_detection
    (after (update_bin_status CONFIG (mkWorld 0 (Responds 201) 0)
              (set_first_full_detection false __init__) 50)) = false.
Proof.
  split; [|reflexivity].
  apply (not_full_arms CONFIG (mkWorld 0 (Responds 201) 0) __init__ 50).
  - split; [unfold lit; simpl; lia | split; [reflexivity | discriminate]].
  - left. reflexivity.
Defined.

(** ** Runs of FULL readings *)

Lemma suppressed_full cfg w self d :
  reads_full cfg d ->
  should_send_email cfg (time_at_decision w) self = false ->
  update_bin_status cfg w self d =
  mkStep (Returns tt) (marked_full self) [Print "Bin is full."].
Proof. intros F S. now rewrite (update_full cfg w self d F), S. Qed.

(** X10: alerts are retried until one succeeds.  On a monitor whose
    first-detection flag is set, FULL readings whose sends all fail
    (the post raises, answers another status than 201, or the alert
    cannot be built) each enter [send_email_alert] once, whatever the
    clock reads; the flag stays set and [last_email_time] keeps its
    value. *)
Theorem failed_alerts_retry (cfg : config) (inputs : list (world * Q))
    (self : WasteBinMonitor) :
  first_full_detection self = true ->
  Forall (fun wd => reads_full cfg (snd wd) /\
                    fst (send_email_alert (post_outcome (fst wd)))
                      <> Returns true) inputs ->
  count_alerts (feed_out cfg inputs self) = List.length inputs /\
  first_full_detection (feed cfg inputs self) = true /\
  last_email_time (feed cfg inputs self) = last_email_time self.
Proof.
  revert self.
  induction inputs as [| [w d] inputs IH]; intros self Harmed Hall.
  - repeat split; assumption.
  - inversion Hall as [| x l [F Hfail] Hrest]; subst. simpl in F, Hfail.
    assert (S : should_send_email cfg (time_at_decision w) self = true)
      by (unfold should_send_email; now rewrite Harmed).
    destruct (full_send_effect cfg w self d F S) as [_ Hkeep].
    destruct (Hkeep Hfail) as [Htime Hfirst].
    destruct (IH (after (update_bin_status cfg w self d))) as (Hn & Hf & Ht);
      [congruence | exact Hrest |].
    simpl. rewrite count_alerts_app, (count_alerts_full cfg w self d F), S, Hn.
    repeat split; [exact Hf | congruence].
Qed.

(** X10, instance: three FULL readings within three seconds, the post
    raising, answering 500, and the alert failing to build. *)
Lemma failed_alerts_retry_witness :
  let inputs := [(mkWorld 1 (PostRaises (Exception "ECONNRESET")) 1, 8%Q);
                 (mkWorld 2 (Responds 500) 2, 8%Q);
                 (mkWorld 3 (BuildRaises (Exception "memory")) 3, 8%Q)] in
  count_alerts (feed_out CONFIG inputs __init__) = 3%nat /\
  first_full_detection (feed CONFIG inputs __init__) = true /\
  last_email_time (feed CONFIG inputs __init__) = 0.
Proof.
  apply (failed_alerts_retry CONFIG
           [(mkWorld 1 (PostRaises (Exception "ECONNRESET")) 1, 8%Q);
            (mkWorld 2 (Responds 500) 2, 8%Q);
            (mkWorld 3 (BuildRaises (Exception "memory")) 3, 8%Q)] __init__).
  - reflexivity.
  - repeat constructor; simpl; discriminate.
Defined.

(** X11: no alert inside the cooldown.  On a monitor whose first-detection
    flag is cleared, FULL readings that are all decided less than the
    cooldown after [last_email_time] never enter [send_email_alert],
    however many they are; the throttle state is left as it was. *)
Theorem quiet_within_cooldown (cfg : config) (inputs : list (world * Q))
    (self : WasteBinMonitor) :
  first_full_detection self = false ->
  Forall (fun wd => reads_full cfg (snd wd) /\
                    time_at_decision (fst wd) - last_email_time self
                      < EMAIL_DELAY cfg) inputs ->
  count_alerts (feed_out cfg inputs self) = 0%nat /\
  first_full_detection (feed cfg inputs self) = false /\
  last_email_time (feed cfg inputs self) = last_email_time self.
Proof.
  revert self.
  induction inputs as [| [w d] inputs IH]; intros self Hfirst Hall.
  - repeat split; assumption.
  - inversion Hall as [| x l [F Hsoon] Hrest]; subst. simpl in F, Hsoon.
    assert (S : should_send_email cfg (time_at_decision w) self = false).
    { unfold should_send_email. rewrite Hfirst.
      destruct (Z.geb_spec (time_at_decision w - last_email_time self)
                           (EMAIL_DELAY cfg)); [lia | reflexivity]. }
    simpl. rewrite (suppressed_full cfg w self d F S). simpl.
    apply (IH (marked_full self)); assumption.
Qed.

(** X11, instance: after a send recorded at time 2, FULL readings at
    times 3, 150 and 301. *)
Lemma quiet_within_cooldown_witness :
  let self := set_first_full_detection false
                (set_last_email_time 2 (marked_full __init__)) in
  let inputs := [(mkWorld 3 (Responds 201) 3, 8%Q);
                 (mkWorld 150 (Responds 201) 150, 8%Q);
                 (mkWorld 301 (Responds 201) 301, 8%Q)] in
  count_alerts (feed_out CONFIG inputs self) = 0%nat /\
  first_full_detection (feed CONFIG inputs self) = false /\
  last_email_time (feed CONFIG inputs self) = 2.
Proof.
  apply (quiet_within_cooldown CONFIG
           [(mkWorld 3 (Responds 201) 3, 8%Q);
            (mkWorld 150 (Responds 201) 150, 8%Q);
            (mkWorld 301 (Responds 201) 301, 8%Q)]
           (set_first_full_detection false
              (set_last_email_time 2 (marked_full __init__)))).
  - reflexivity.
  - repeat constructor; simpl; try discriminate; lia.
Defined.

(** X12: a reading other than FULL that is repeated changes nothing
    further: the second call leaves the monitor as the first did and
    prints the same line. *)
Theorem repeated_reading_is_stable (cfg : config) (w1 w2 : world)
    (self : WasteBinMonitor) (d : Q) :
  reads_not_full cfg d ->
  let s1 := update_bin_status cfg w1 self d in
  let s2 := update_bin_status cfg w2 (after s1) d in
  after s2 = after s1 /\ out s2 = out s1.
Proof.
  intros N.
  destruct (not_full_cases cfg d N) as [E | [E P]]; cbv zeta.
  - rewrite (update_empty cfg w1 self d E).
    rewrite (update_empty cfg w2 _ d E).
    destruct self as [g y r t full first]; destruct full; simpl; auto.
  - rewrite (update_partial cfg w1 self d E P).
    rewrite (update_partial cfg w2 _ d E P).
    destruct self as [g y r t full first]; destruct full; simpl; auto.
Qed.

(** X12, instance: a reading of 25, twice, on a full monitor. *)
Lemma repeated_reading_is_stable_witness :
  let s1 := update_bin_status CONFIG (mkWorld 1 (Responds 201) 1)
              (marked_full __init__) 25 in
  let s2 := update_bin_status CONFIG (mkWorld 9 (Responds 500) 9)
              (after s1) 25 in
  after s2 = after s1 /\ out s2 = out s1.
Proof.
  apply (repeated_reading_is_stable CONFIG (mkWorld 1 (Responds 201) 1)
           (mkWorld 9 (Responds 500) 9) (marked_full __init__) 25).
  right. reflexivity.
Defined.

(** ** The loop as a whole *)

(** X13: a timed-out measurement re-arms the alert.  In a cycle whose
    measurement returns the sentinel 100 while the monitor holds the bin
    as full (EMPTY threshold below 100), the body returns normally, the
    LEDs show EMPTY, the full flag is cleared and the first-detection
    flag set: the next FULL reading alerts whatever the clock reads, the
    cooldown notwithstanding. *)
Theorem sentinel_cycle_rearms (cfg : config) (c : cycle)
    (self : WasteBinMonitor) (echo : list bool) (ticks : list Z) :
  EMPTY cfg < 100 ->
  sensing c = Returns (echo, ticks) ->
  measure_distance echo ticks = Some 100%Q ->
  is_currently_full self = true ->
  exists s,
    try_body cfg c self = Some s /\
    ret s = Returns tt /\
    pauses (out s ++ handler (ret s)) = [10] /\
    indicated (after s) = Some EMPTY_BIN /\
    is_currently_full (after s) = false /\
    first_full_detection (after s) = true /\
    forall w d, reads_full cfg d ->
      In (alert_of cfg) (out (update_bin_status cfg w (after s) d)).
Proof.
  intros Hthr Hsens Hdist Hfull.
  assert (E : (inject_Z (EMPTY cfg) < 100)%Q)
    by (unfold Qlt; simpl; lia).
  assert (N : reads_not_full cfg 100) by now left.
  unfold try_body. rewrite Hsens, Hdist.
  rewrite (update_empty cfg (outside c) self 100 E). simpl.
  rewrite Hfull. eexists. split; [reflexivity|]. simpl.
  repeat split.
  intros w d F. apply alert_iff_should_send; [exact F | reflexivity].
Qed.

(** X13, instance: an alert recorded at time 2, a disconnected sensor in
    the next cycle, and a FULL reading at time 13. *)
Lemma sentinel_cycle_rearms_witness :
  exists s,
    try_body CONFIG
      (mkCycle (Returns ([false; false], [0; 10; 20; 30000; 30001]))
               (mkWorld 12 (Responds 201) 12))
      (set_first_full_detection false
         (set_last_email_time 2 (marked_full __init__))) = Some s /\
    In (alert_of CONFIG)
       (out (update_bin_status CONFIG (mkWorld 13 (Responds 201) 13)
               (after s) 8)).
Proof.
  destruct (sentinel_cycle_rearms CONFIG
              (mkCycle (Returns ([false; false], [0; 10; 20; 30000; 30001]))
                       (mkWorld 12 (Responds 201) 12))
              (set_first_full_detection false
                 (set_last_email_time 2 (marked_full __init__)))
              [false; false] [0; 10; 20; 30000; 30001])
    as (s & Hs & _ & _ & _ & _ & _ & Hnext).
  - simpl. lia.
  - reflexivity.
  - reflexivity.
  - reflexivity.
  - exists s. split; [exact Hs|]. apply Hnext. split; discriminate.
Defined.


Lemma try_body_coherent cfg c self s :
  coherent self -> try_body cfg c self = Some s -> coherent (after s).
Proof.
  intros Hco. unfold try_body.
  destruct (sensing c) as [[echo ticks] | e].
  - destruct (measure_distance echo ticks) as [d |]; [|discriminate].
    pose proof (update_coherent cfg (outside c) self d Hco) as Hco'.
    destruct (ret (update_bin_status cfg (outside c) self d));
      intros H; injection H as <-; exact Hco'.
  - intros H; injection H as <-. exact Hco.
Qed.

Lemma monitor_loop_coherent cfg : forall cycles self m o,
  coherent self -> monitor_loop cfg cycles self = Some (m, o) -> coherent m.
Proof.
  induction cycles as [| c cycles IH]; intros self m o Hco; simpl.
  - intros H; injection H as <- _. exact Hco.
  - destruct (try_body cfg c self) as [s |] eqn:Hs; [|discriminate].
    destruct (monitor_loop cfg cycles (after s)) as [[m' o'] |] eqn:Hl;
      [|discriminate].
    intros H; injection H as <- _.
    apply (IH (after s) m' o'); [|exact Hl].
    now apply (try_body_coherent cfg c self s).
Qed.

(** X15: whatever a run goes through (failed start-up, exceptions in any
    cycle, timeouts), the monitor it leaves is coherent when the one it
    started from was, as the fresh one is: never two LEDs lit, the red
    LED on exactly when the full flag is set, and the first-detection
    flag cleared only while the full flag is set. *)
Theorem run_keeps_coherent (cfg : config) (polls : list bool)
    (clock : list Z) (cycles : list cycle) (self m : WasteBinMonitor)
    (ctl : control) (o : list event) :
  coherent self ->
  run cfg polls clock cycles self = Some (ctl, m, o) ->
  coherent m.
Proof.
  intros Hco. unfold run.
  destruct (connect_wifi polls clock) as [[|] |]; [| |discriminate].
  - destruct (monitor_loop cfg cycles self) as [[m' o'] |] eqn:Hl;
      [|discriminate].
    intros H; injection H as _ <- _.
    now apply (monitor_loop_coherent cfg cycles self m' o').
  - intros H; injection H as _ <- _. exact Hco.
Qed.

(** X15, instance: the demo run from the fresh monitor. *)
Lemma run_keeps_coherent_witness :
  coherent {| green_led := false; yellow_led := false; red_led := true;
              last_email_time := 13; is_currently_full := true;
              first_full_detection := false |}.
Proof.
  apply (run_keeps_coherent CONFIG demo_polls demo_clock demo_cycles __init__
           _ Looping
           (snd (match run CONFIG demo_polls demo_clock demo_cycles __init__
                 with Some r => r | None => (Looping, __init__, []) end))).
  - split; [unfold lit; simpl; lia | split; [reflexivity | discriminate]].
  - reflexivity.
Defined.

Lemma count_alerts_update cfg w self d :
  (count_alerts (out (update_bin_status cfg w self d)) <= 1)%nat.
Proof.
  destruct (reads_full_or_not cfg d) as [F | N].
  - rewrite (count_alerts_full cfg w self d F).
    destruct (should_send_email _ _ _); lia.
  - destruct (not_full_cases cfg d N) as [E | [E P]];
      [rewrite (update_empty cfg w self d E)
      | rewrite (update_partial cfg w self d E P)];
      unfold count_alerts; simpl; lia.
Qed.

Lemma count_alerts_cycle cfg c self s :
  try_body cfg c self = Some s ->
  (count_alerts (out s ++ handler (ret s)) <= 1)%nat.
Proof.
  unfold try_body.
  destruct (sensing c) as [[echo ticks] | e].
  - destruct (measure_distance echo ticks) as [d |]; [|discriminate].
    pose proof (count_alerts_update cfg (outside c) self d) as Hle.
    unfold count_alerts in *.
    destruct (ret (update_bin_status cfg (outside c) self d)) as [[] | e];
      intros H; injection H as <-; simpl;
      rewrite ?filter_app, ?length_app; simpl; lia.
  - intros H; injection H as <-. unfold count_alerts. simpl. lia.
Qed.

(** X16: the loop enters [send_email_alert] at most once per cycle. *)
Theorem loop_alerts_bounded (cfg : config) (cycles : list cycle)
    (self m : WasteBinMonitor) (o : list event) :
  monitor_loop cfg cycles self = Some (m, o) ->
  (count_alerts o <= List.length cycles)%nat.
Proof.
  revert self m o.
  induction cycles as [| c cycles IH]; intros self m o; simpl.
  - intros H; injection H as _ <-. unfold count_alerts. simpl. lia.
  - destruct (try_body cfg c self) as [s |] eqn:Hs; [|discriminate].
    destruct (monitor_loop cfg cycles (after s)) as [[m' o'] |] eqn:Hl;
      [|discriminate].
    intros H; injection H as _ <-.
    pose proof (count_alerts_cycle cfg c self s Hs) as H1.
    pose proof (IH _ _ _ Hl) as H2.
    rewrite app_assoc, count_alerts_app. lia.
Qed.

(** X16, instance: the demo run alerts twice in three cycles. *)
Lemma loop_alerts_bounded_witness :
  (count_alerts
     (snd (match monitor_loop CONFIG demo_cycles __init__ with
           | Some r => r | None => (__init__, []) end)) <= 3)%nat.
Proof.
  apply (loop_alerts_bounded CONFIG demo_cycles __init__
           (fst (match monitor_loop CONFIG demo_cycles __init__ with
                 | Some r => r | None => (__init__, []) end))).
  reflexivity.
Defined.
